(** * AdGuard DNS: message helpers, device-id extraction, linked-IP routing

    A shallow embedding of the parts of the AdGuard DNS edge that the
    specification's testable properties talk about.

    Translated from the source files:
    - [dnsmsg.Clone], [dnsmsg.ECSFromMsg] and [dnsmsg.ecsData]
      (package [internal/dnsmsg]), over the types of [miekg/dns] and
      [net/netip] that they use;
    - [UnmarshalText] of [strictBool] (package [internal/cmd]);
    - [shouldProxy] and the dispatch of [linkedIPProxy.ServeHTTP]
      (package [internal/websvc]).

    Also translated from the source files, beyond those:
    - [dnsmsg.IsDO];
    - the [Director] and [ModifyResponse] functions of [linkedIPHandler],
      and the request headers that [linkedIPProxy.ServeHTTP] writes, over
      a model of [http.Header];
    - [filtersConfig.validate] (package [internal/cmd]);
    - the test helper [unpackJSONMsg] (package [internal/dnsserver]).

    Modelled from the specification and the repository's tests, because
    the functions themselves are not among the source files:
    - [agd.NewDeviceID] and [deviceIDFromContext] with its helpers
      (packages [internal/agd] and [internal/dnssvc]);
    - [dnsserver.DNSMsgToJSONMsg] (package [internal/dnsserver]).

    Go values are modelled as the code has them: unsigned integers as [Z]
    with the wrap-around written out, [[]byte] and [net.IP] as
    [list Byte.byte], Go strings as [string] (a sequence of bytes), a slice
    that may be [nil] as an [option] of a list, a pointer that may be [nil]
    as an [option], and a Go function returning [(v, err)] as a value paired
    with an [option] of an error. *)

From Stdlib Require Import ZArith List String Ascii Bool Lia.
From Stdlib.Strings Require Import Byte.
From Stdlib Require Import DecimalString HexadecimalString.
Import ListNotations.

#[local] Open Scope string_scope.
#[local] Open Scope Z_scope.

(** ** Go slices *)

(** A Go slice is either [nil] or a (possibly empty) sequence of elements;
    [len] is zero in both of the first two cases. *)
Definition slice (A : Type) : Type := option (list A).

Definition elems {A : Type} (s : slice A) : list A :=
  match s with
  | None => []
  | Some l => l
  end.

Definition len {A : Type} (s : slice A) : nat := List.length (elems s).

Definition is_nil {A : Type} (s : slice A) : bool :=
  match s with
  | None => true
  | Some _ => false
  end.

(** ** Package [strings] of the Go standard library *)

Module strings.

(** [CutPrefix s prefix] is [s] without the leading [prefix], if it starts
    with it. *)
Fixpoint CutPrefix (s prefix : string) {struct prefix} : option string :=
  match prefix, s with
  | EmptyString, _ => Some s
  | String p prefix', String c s' =>
      if Ascii.eqb p c then CutPrefix s' prefix' else None
  | String _ _, EmptyString => None
  end.

Definition HasPrefix (s prefix : string) : bool :=
  match CutPrefix s prefix with
  | Some _ => true
  | None => false
  end.

Definition TrimPrefix (s prefix : string) : string :=
  match CutPrefix s prefix with
  | Some rest => rest
  | None => s
  end.

(** [Cut s sep] slices [s] around the first instance of [sep]; [sep] is
    never empty in this program. *)
Fixpoint Cut (s sep : string) : option (string * string) :=
  match CutPrefix s sep with
  | Some after => Some (EmptyString, after)
  | None =>
      match s with
      | EmptyString => None
      | String c s' =>
          match Cut s' sep with
          | Some (before, after) => Some (String c before, after)
          | None => None
          end
      end
  end.

(** The loop of [genSplit]: at most [cuts] cuts, the rest of the string
    last. *)
Fixpoint splitLoop (cuts : nat) (s sep : string) : list string :=
  match cuts with
  | O => [s]
  | S cuts' =>
      match Cut s sep with
      | None => [s]
      | Some (before, after) => before :: splitLoop cuts' after sep
      end
  end.

(** [SplitN s sep n]: no substrings for [n = 0], all of them for [n < 0],
    at most [n] of them otherwise, the last one being the unsplit
    remainder. *)
Definition SplitN (s sep : string) (n : Z) : list string :=
  if n =? 0 then []
  else if n <? 0 then splitLoop (String.length s) s sep
  else splitLoop (Z.to_nat (n - 1)) s sep.

Definition Split (s sep : string) : list string := SplitN s sep (-1).

Fixpoint Join (elems : list string) (sep : string) : string :=
  match elems with
  | [] => EmptyString
  | [e] => e
  | e :: rest => e ++ sep ++ Join rest sep
  end.

(** [strconv.Itoa] on a length. *)
Definition Itoa (n : nat) : string :=
  DecimalString.NilZero.string_of_uint (Nat.to_uint n).

Definition dquote : ascii := "034"%char.
Definition squote : ascii := "039"%char.

(** [%q] of a string and of a rune, for printable text that holds no
    quote and no backslash: the text between two quote characters. *)
Definition quoted (s : string) : string :=
  String dquote (s ++ String dquote EmptyString).

Definition quotedRune (r : ascii) : string :=
  String squote (String r (String squote EmptyString)).

(** *** Specification vocabulary *)

(** The one-byte string of a separator. *)
Definition sep1 (c : ascii) : string := String c EmptyString.

(** [free c s]: the byte [c] does not occur in [s]. *)
Fixpoint free (c : ascii) (s : string) : bool :=
  match s with
  | EmptyString => true
  | String d s' => negb (Ascii.eqb c d) && free c s'
  end.

End strings.

(** ** Package [net/netip] of the Go standard library *)

Module netip.

(** [uint128] is a pair of 64-bit words, [hi] the most significant. *)
Record uint128 : Type := mkU128 { hi : Z; lo : Z }.

Definition u64max : Z := 2 ^ 64 - 1.

Definition not64 (x : Z) : Z := Z.lxor x u64max.
Definition shr64 (x n : Z) : Z := Z.shiftr x n.
Definition shl64 (x n : Z) : Z := (Z.shiftl x n) mod 2 ^ 64.

Definition and128 (u m : uint128) : uint128 :=
  {| hi := Z.land (hi u) (hi m); lo := Z.land (lo u) (lo m) |}.

(** [mask6 n] has the [n] most significant of its 128 bits set:
    [uint128{^(^uint64(0) >> n), ^uint64(0) << (128 - n)}]. *)
Definition mask6 (n : Z) : uint128 :=
  {| hi := not64 (shr64 u64max n); lo := shl64 u64max (128 - n) |}.

(** The zone pointer of an address: [z0] marks the zero [Addr], [z4] an
    IPv4 address, [z6noz] an IPv6 address without a zone. *)
Inductive zone : Type :=
| z0
| z4
| z6noz
| z6zone (name : string).

Record Addr : Type := mkAddr { addr : uint128; z : zone }.

Definition zeroAddr : Addr := {| addr := mkU128 0 0; z := z0 |}.

Definition isZero (ip : Addr) : bool :=
  match z ip with
  | z0 => true
  | _ => false
  end.

Definition Is6 (ip : Addr) : bool :=
  match z ip with
  | z0 | z4 => false
  | _ => true
  end.

Definition BitLen (ip : Addr) : Z :=
  match z ip with
  | z0 => 0
  | z4 => 32
  | _ => 128
  end.

Definition withoutZone (ip : Addr) : Addr :=
  if Is6 ip then {| addr := addr ip; z := z6noz |} else ip.

(** A prefix stores its bit length plus one in a [uint8]; zero marks an
    invalid prefix. *)
Record Prefix : Type := mkPrefix { ip : Addr; bitsPlusOne : Z }.

Definition zeroPrefix : Prefix := {| ip := zeroAddr; bitsPlusOne := 0 |}.

Definition PrefixFrom (a : Addr) (bits : Z) : Prefix :=
  let bitsPlusOne :=
    if negb (isZero a) && (0 <=? bits) && (bits <=? BitLen a)
    then (bits mod 2 ^ 8 + 1) mod 2 ^ 8
    else 0 in
  {| ip := withoutZone a; bitsPlusOne := bitsPlusOne |}.

Definition Bits (p : Prefix) : Z := bitsPlusOne p - 1.

Definition IsValid (p : Prefix) : bool := 0 <? bitsPlusOne p.

(** [Addr.Prefix]: the address with all but its [b] leading bits cleared,
    as a prefix; the second component is the error. *)
Definition AddrPrefix (a : Addr) (b : Z) : Prefix * bool :=
  if b <? 0 then (zeroPrefix, true)
  else
    match z a with
    | z0 => (zeroPrefix, false)
    | z4 =>
        if 32 <? b then (zeroPrefix, true)
        else
          (PrefixFrom {| addr := and128 (addr a) (mask6 (b + 96)); z := z a |} b,
           false)
    | _ =>
        if 128 <? b then (zeroPrefix, true)
        else
          (PrefixFrom {| addr := and128 (addr a) (mask6 b); z := z a |} b,
           false)
    end.

Definition Masked (p : Prefix) : Prefix := fst (AddrPrefix (ip p) (Bits p)).

(** Go compares structs field by field. *)
Definition zone_eqb (a b : zone) : bool :=
  match a, b with
  | z0, z0 | z4, z4 | z6noz, z6noz => true
  | z6zone n, z6zone m => String.eqb n m
  | _, _ => false
  end.

Definition Addr_eqb (a b : Addr) : bool :=
  (hi (addr a) =? hi (addr b)) && (lo (addr a) =? lo (addr b))
  && zone_eqb (z a) (z b).

Definition Prefix_eqb (p q : Prefix) : bool :=
  Addr_eqb (ip p) (ip q) && (bitsPlusOne p =? bitsPlusOne q).

(** [AddrFrom4] and [AddrFrom16]: an IPv4 address is kept in the low 32
    bits, below the sixteen bits [0xffff]. *)
Definition beUint (bs : list byte) : Z :=
  fold_left (fun acc b => acc * 256 + Z.of_N (Byte.to_N b)) bs 0.

Definition AddrFrom4 (b : list byte) : Addr :=
  {| addr := {| hi := 0; lo := Z.lor 0xffff00000000 (beUint b) |}; z := z4 |}.

Definition AddrFrom16 (b : list byte) : Addr :=
  {| addr := {| hi := beUint (firstn 8 b); lo := beUint (skipn 8 b) |};
     z := z6noz |}.

(** *** Specification vocabulary *)

(** The two words of an address are 64-bit values. *)
Definition wfAddr (a : Addr) : Prop :=
  0 <= hi (addr a) < 2 ^ 64 /\ 0 <= lo (addr a) < 2 ^ 64.

(** [bitAt a i] is bit [i] of the address in network order: bit 0 is the
    most significant bit of its first byte. *)
Definition bitAt (a : Addr) (i : Z) : bool :=
  match z a with
  | z0 => false
  | z4 => Z.testbit (lo (addr a)) (31 - i)
  | _ =>
      if i <? 64 then Z.testbit (hi (addr a)) (63 - i)
      else Z.testbit (lo (addr a)) (127 - i)
  end.

(** Some bit of the address after its first [n] bits is set. *)
Definition bitsBeyondPrefix (a : Addr) (n : Z) : Prop :=
  exists i, n <= i < BitLen a /\ bitAt a i = true.

End netip.

(** ** Package [github.com/miekg/dns] *)

Module dns.

(** [net.IP] is a byte slice. *)
Definition IP : Type := list byte.

(** The EDNS0 client-subnet option (RFC 7871). *)
Record EDNS0_SUBNET : Type := mkSubnet {
  Code : Z;            (* uint16 *)
  Family : Z;          (* uint16 *)
  SourceNetmask : Z;   (* uint8 *)
  SourceScope : Z;     (* uint8 *)
  Address : IP
}.

(** An EDNS0 option: the client subnet, or any other option, kept by its
    option code and data. *)
Inductive EDNS0 : Type :=
| OptSubnet (esn : EDNS0_SUBNET)
| OptOther (code : Z) (data : list byte).

Record RR_Header : Type := mkHdr {
  Name : string;
  Rrtype : Z;   (* uint16 *)
  Class : Z;    (* uint16 *)
  Ttl : Z       (* uint32 *)
}.

(** The key-value pairs of an SVCB or HTTPS record. *)
Inductive SVCBKeyValue : Type :=
| SVCBAlpn (alpn : list string)
| SVCBECHConfig (ech : list byte)
| SVCBIPv4Hint (hint : list IP)
| SVCBIPv6Hint (hint : list IP).

Inductive RR : Type :=
| A (hdr : RR_Header) (a : IP)
| AAAA (hdr : RR_Header) (aaaa : IP)
| CNAME (hdr : RR_Header) (target : string)
| TXT (hdr : RR_Header) (txt : list string)
| SVCB (hdr : RR_Header) (priority : Z) (target : string)
       (value : list SVCBKeyValue)
| OPT (hdr : RR_Header) (option : list EDNS0)
| RFC3597 (hdr : RR_Header) (rdata : string).

Definition Header (rr : RR) : RR_Header :=
  match rr with
  | A h _ | AAAA h _ | CNAME h _ | TXT h _ | SVCB h _ _ _ | OPT h _
  | RFC3597 h _ => h
  end.

Definition TypeA : Z := 1.
Definition TypeCNAME : Z := 5.
Definition TypeTXT : Z := 16.
Definition TypeAAAA : Z := 28.
Definition TypeOPT : Z := 41.
Definition TypeSVCB : Z := 64.
Definition TypeHTTPS : Z := 65.
Definition ClassINET : Z := 1.
Definition ClassCHAOS : Z := 3.
Definition RcodeSuccess : Z := 0.

Record Question : Type := mkQuestion {
  QName : string;
  Qtype : Z;
  Qclass : Z
}.

Record MsgHdr : Type := mkMsgHdr {
  Id : Z;
  Response : bool;
  Opcode : Z;
  Authoritative : bool;
  Truncated : bool;
  RecursionDesired : bool;
  RecursionAvailable : bool;
  Zero : bool;
  AuthenticatedData : bool;
  CheckingDisabled : bool;
  Rcode : Z
}.

Record Msg : Type := mkMsg {
  Hdr : MsgHdr;
  Compress : bool;
  Questions : slice Question;
  Answer : slice RR;
  Ns : slice RR;
  Extra : slice RR
}.

(** [rr.copy()] allocates a new record holding the same data. *)
Definition copyRR (rr : RR) : RR := rr.

(** [Msg.Copy]: the question slice is copied only when it has elements,
    so it is [nil] in the copy otherwise; the three record sections are
    carved out of one freshly made array, so none of them is [nil] in the
    copy, whatever they were in the original. *)
Definition Copy (m : Msg) : Msg :=
  {| Hdr := Hdr m;
     Compress := Compress m;
     Questions :=
       if (0 <? len (Questions m))%nat then Some (elems (Questions m))
       else None;
     Answer := Some (map copyRR (elems (Answer m)));
     Ns := Some (map copyRR (elems (Ns m)));
     Extra := Some (map copyRR (elems (Extra m))) |}.

(** [Msg.IsEdns0]: the last record of the additional section whose header
    has the type OPT; the library gives that type to OPT records only. *)
Fixpoint lastOPT (rrs : list RR) (found : option (list EDNS0))
  : option (list EDNS0) :=
  match rrs with
  | [] => found
  | OPT hdr o :: rest =>
      lastOPT rest (if Rrtype hdr =? TypeOPT then Some o else found)
  | _ :: rest => lastOPT rest found
  end.

Definition IsEdns0 (m : Msg) : option (list EDNS0) :=
  lastOPT (elems (Extra m)) None.

(** The type assertion of [ECSFromMsg]: is the option a client subnet? *)
Definition isSubnet (o : EDNS0) : bool :=
  match o with
  | OptSubnet _ => true
  | OptOther _ _ => false
  end.

End dns.

(** ** Package [internal/agdnet] *)

Module agdnet.

(** [AddrFamily] is a [uint16]. *)
Definition AddrFamily : Type := Z.

(** Modelled from the spec: the constants [agdnet.AddrFamilyIPv4] and
    [agdnet.AddrFamilyIPv6], whose declarations are not among the source
    files; the spec gives the accepted address families as 1 (IPv4) and
    2 (IPv6). *)
Definition AddrFamilyIPv4 : AddrFamily := 1.
Definition AddrFamilyIPv6 : AddrFamily := 2.

(** One conversion that can stand for the parameter [IPToAddr] of
    [dnsmsg.ecsData] when the model is run on a concrete option: four
    bytes make an IPv4 address and sixteen an IPv6 address, of the family
    asked for; anything else is an error. *)
Definition IPToAddr_bytes (ip : list byte) (fam : AddrFamily)
  : netip.Addr * option unit :=
  if (fam =? AddrFamilyIPv4) && (List.length ip =? 4)%nat
  then (netip.AddrFrom4 ip, None)
  else if (fam =? AddrFamilyIPv6) && (List.length ip =? 16)%nat
  then (netip.AddrFrom16 ip, None)
  else (netip.zeroAddr, Some tt).

End agdnet.

(** ** Package [internal/dnsmsg] *)

Module dnsmsg.

Import netip dns.

(** [Clone] returns a deep copy of [msg] that keeps the nilness of the
    three record sections. *)
Definition Clone (msg : option Msg) : option Msg :=
  match msg with
  | None => None
  | Some msg =>
      let clone := Copy msg in
      let clone :=
        if is_nil (Answer msg)
        then {| Hdr := Hdr clone; Compress := Compress clone;
                Questions := Questions clone; Answer := None;
                Ns := Ns clone; Extra := Extra clone |}
        else clone in
      let clone :=
        if is_nil (Ns msg)
        then {| Hdr := Hdr clone; Compress := Compress clone;
                Questions := Questions clone; Answer := Answer clone;
                Ns := None; Extra := Extra clone |}
        else clone in
      let clone :=
        if is_nil (Extra msg)
        then {| Hdr := Hdr clone; Compress := Compress clone;
                Questions := Questions clone; Answer := Answer clone;
                Ns := Ns clone; Extra := None |}
        else clone in
      Some clone
  end.

Section ECS.

(** [agdnet.IPToAddr] is not among the source files: the conversion of
    the option's [net.IP] to a [netip.Addr] of the given family, and
    the type [E] of its errors, are parameters of the model. *)
Variable E : Type.
Variable IPToAddr : IP -> agdnet.AddrFamily -> Addr * option E.

(** The errors of [ecsData], by the format string that builds them. *)
Inductive ecsError : Type :=
| ErrUnsupportedFamily (fam : agdnet.AddrFamily)
    (* "unsupported addr family number %d" *)
| ErrBadIPAddr (err : E)
    (* "bad ecs ip addr: %w" *)
| ErrBadSrcNetmask (prefixLen : Z) (fam : agdnet.AddrFamily)
    (* "bad src netmask %d for addr family %s" *)
| ErrBitsBeyondPrefix (a : Addr) (prefixLen : Z).
    (* "ip %s has non-zero bits beyond prefix %d" *)

(** [BadECSError{Err: err}]. *)
Inductive BadECSError : Type :=
| mkBadECSError (Err : ecsError).

Definition ecsData (esn : EDNS0_SUBNET) : Prefix * Z * option ecsError :=
  let fam := Family esn in
  if negb (fam =? agdnet.AddrFamilyIPv4) && negb (fam =? agdnet.AddrFamilyIPv6)
  then (zeroPrefix, 0, Some (ErrUnsupportedFamily fam))
  else
    match IPToAddr (Address esn) fam with
    | (_, Some err) => (zeroPrefix, 0, Some (ErrBadIPAddr err))
    | (a, None) =>
        let prefixLen := SourceNetmask esn in
        let subnet := PrefixFrom a prefixLen in
        if negb (IsValid subnet)
        then (zeroPrefix, 0, Some (ErrBadSrcNetmask prefixLen fam))
        else if negb (Prefix_eqb (Masked subnet) subnet)
        then (zeroPrefix, 0, Some (ErrBitsBeyondPrefix a prefixLen))
        else (subnet, SourceScope esn, None)
    end.

(** The loop of [ECSFromMsg] over the options of the OPT record. *)
Fixpoint ecsFromOptions (opts : list EDNS0)
  : Prefix * Z * option BadECSError :=
  match opts with
  | [] => (zeroPrefix, 0, None)
  | OptOther _ _ :: rest => ecsFromOptions rest
  | OptSubnet esn :: rest =>
      match ecsData esn with
      | (_, _, Some err) => (zeroPrefix, 0, Some (mkBadECSError err))
      | (subnet, scope, None) =>
          if negb (Prefix_eqb subnet zeroPrefix)
          then (subnet, scope, None)
          else ecsFromOptions rest
      end
  end.

Definition ECSFromMsg (msg : Msg) : Prefix * Z * option BadECSError :=
  match IsEdns0 msg with
  | None => (zeroPrefix, 0, None)
  | Some opt => ecsFromOptions opt
  end.

End ECS.

Arguments ErrUnsupportedFamily {E} fam.
Arguments ErrBadIPAddr {E} err.
Arguments ErrBadSrcNetmask {E} prefixLen fam.
Arguments ErrBitsBeyondPrefix {E} a prefixLen.
Arguments mkBadECSError {E} Err.
Arguments ecsData {E} IPToAddr esn.
Arguments ecsFromOptions {E} IPToAddr opts.
Arguments ECSFromMsg {E} IPToAddr msg.

End dnsmsg.

(** ** Sample values *)

Module sample.

Import dns.

Definition hdrOPT : RR_Header :=
  {| Name := "."; Rrtype := TypeOPT; Class := 4096; Ttl := 0 |}.

(** The client subnet [1.2.3.4/24]: the last byte is beyond the prefix. *)
Definition esn_1_2_3_4_24 : EDNS0_SUBNET :=
  {| Code := 8; Family := 1; SourceNetmask := 24; SourceScope := 0;
     Address := [x01; x02; x03; x04] |}.

Definition emptyHdr : MsgHdr :=
  {| Id := 0; Response := false; Opcode := 0; Authoritative := false;
     Truncated := false; RecursionDesired := true;
     RecursionAvailable := false; Zero := false;
     AuthenticatedData := false; CheckingDisabled := false; Rcode := 0 |}.

(** A query for [example.org.] with a cookie option and that client
    subnet. *)
Definition msg_1_2_3_4_24 : Msg :=
  {| Hdr := emptyHdr; Compress := false;
     Questions := Some [{| QName := "example.org."; Qtype := TypeA;
                           Qclass := ClassINET |}];
     Answer := None; Ns := None;
     Extra := Some [OPT hdrOPT [OptOther 10 []; OptSubnet esn_1_2_3_4_24]] |}.

End sample.

(** ** Package [internal/cmd] *)

Module cmd.

(** [fmt.Errorf("invalid value %q, supported: %q, %q", b, "0", "1")]. *)
Inductive error : Type :=
| ErrInvalidValue (b : list byte).

(** [strictBool] is a [bool] that is parsed from the environment more
    strictly: only the texts [0] and [1] are valid. *)
Definition strictBool : Type := bool.

(** [UnmarshalText] on the receiver [sb]: the receiver after the call and
    the error. *)
Definition UnmarshalText (sb : strictBool) (b : list byte)
  : strictBool * option error :=
  if (List.length b =? 1)%nat then
    match nth 0 b x00 with
    | x30 => (false, None)
    | x31 => (true, None)
    | _ => (sb, Some (ErrInvalidValue b))
    end
  else (sb, Some (ErrInvalidValue b)).

End cmd.

(** ** Package [internal/websvc] *)

Module websvc.

Import strings.

Definition MethodGet : string := "GET".
Definition MethodPost : string := "POST".

(** [parts[i]]; every index the code reads is within the length it has
    checked before. *)
Definition index (parts : list string) (i : nat) : string :=
  nth i parts EmptyString.

Definition shouldProxyGet (parts : list string) : bool :=
  let l := List.length parts in
  String.eqb (index parts 0) "linkip"
  && ((l =? 3)%nat || ((l =? 4)%nat && String.eqb (index parts 3) "status")).

Definition shouldProxyPost (parts : list string) : bool :=
  let l := List.length parts in
  let firstPart := index parts 0 in
  (String.eqb firstPart "ddns" && (l =? 4)%nat)
  || (String.eqb firstPart "linkip" && (l =? 3)%nat).

Definition shouldProxy (method urlPath : string) : bool :=
  let parts := SplitN (TrimPrefix urlPath "/") "/" 5 in
  let l := List.length parts in
  if (l <? 3)%nat || (4 <? l)%nat then false
  else if String.eqb method MethodGet then shouldProxyGet parts
  else if String.eqb method MethodPost then shouldProxyPost parts
  else false.

(** The requests that the documentation of [shouldProxy] lists, by method
    and by path without its leading slash; a path segment holds no slash:
    - [GET /linkip/{device_id}/{encrypted}]
    - [GET /linkip/{device_id}/{encrypted}/status]
    - [POST /ddns/{device_id}/{encrypted}/{domain}]
    - [POST /linkip/{device_id}/{encrypted}] *)
Definition segment (s : string) : Prop := free "/" s = true.

Inductive proxiedRoute : string -> string -> Prop :=
| GetLinkIP id enc :
    segment id -> segment enc ->
    proxiedRoute "GET" ("linkip/" ++ id ++ "/" ++ enc)
| GetLinkIPStatus id enc :
    segment id -> segment enc ->
    proxiedRoute "GET" ("linkip/" ++ id ++ "/" ++ enc ++ "/status")
| PostDDNS id enc domain :
    segment id -> segment enc -> segment domain ->
    proxiedRoute "POST" ("ddns/" ++ id ++ "/" ++ enc ++ "/" ++ domain)
| PostLinkIP id enc :
    segment id -> segment enc ->
    proxiedRoute "POST" ("linkip/" ++ id ++ "/" ++ enc).

(** What [linkedIPProxy.ServeHTTP] does with a request. *)
Inductive served : Type :=
| Proxied (ip : string)       (* [prx.httpProxy.ServeHTTP], with the real IP *)
| InternalServerError         (* [http.Error], status 500 *)
| RobotsDisallow              (* [serveRobotsDisallow] *)
| NotFound.                   (* [http.NotFound], status 404 *)

Section ServeHTTP.

(** [netutil.SplitHost], from the golibs module. *)
Variable SplitHost : string -> option string.

Definition ServeHTTP (method urlPath rAddr : string) : served :=
  if shouldProxy method urlPath then
    match SplitHost rAddr with
    | None => InternalServerError
    | Some ip => Proxied ip
    end
  else if String.eqb urlPath "/robots.txt" then RobotsDisallow
  else NotFound.

End ServeHTTP.

End websvc.

(** ** Package [internal/agd]: device identifiers *)

(** The validation of device ids is not among the source files; this
    module follows the grammar and the error messages that the spec and
    the tests of [internal/dnssvc] give. *)

Module agd.

Import strings.

(** The protocols of [agd.Protocol]. *)
Inductive Protocol : Type :=
| ProtoDNSTCP
| ProtoDNSUDP
| ProtoDoH
| ProtoDoQ
| ProtoDoT
| ProtoDNSCrypt.

Definition DeviceID : Type := string.

Definition MaxDeviceIDLen : nat := 8.

(** Why a string is not a device id. *)
Inductive idError : Type :=
| ErrTooLong (got max : nat)
    (* "too long: got %d bytes, max %d" *)
| ErrBadLabelRune (r : ascii).
    (* "bad domain name label rune %q" *)

(** ["bad device id %q: %w"]. *)
Inductive deviceIDError : Type :=
| ErrBadDeviceID (s : string) (err : idError).

Definition isLetter (c : ascii) : bool :=
  let n := nat_of_ascii c in
  ((65 <=? n) && (n <=? 90) || (97 <=? n) && (n <=? 122))%nat.

Definition isDigit (c : ascii) : bool :=
  let n := nat_of_ascii c in ((48 <=? n) && (n <=? 57))%nat.

(** A rune of the device-id grammar: an ASCII letter, a digit or [-]. *)
Definition isLabelRune (c : ascii) : bool :=
  isLetter c || isDigit c || Ascii.eqb c "-".

Fixpoint firstBadRune (s : string) : option ascii :=
  match s with
  | EmptyString => None
  | String c s' => if isLabelRune c then firstBadRune s' else Some c
  end.

(** Modelled from the spec: [agd.NewDeviceID], the validation of a
    candidate device id, which is not among the source files.  The spec
    gives the grammar (at most 8 bytes; every rune an ASCII letter, a
    digit or [-]) and the two error messages; the length is checked
    first, as the message for a 72-byte candidate in
    [TestService_Wrap_deviceID] shows.  Strings are byte sequences: a
    rune outside ASCII is seen as its first byte. *)
Definition NewDeviceID (s : string) : DeviceID * option deviceIDError :=
  if (MaxDeviceIDLen <? String.length s)%nat then
    (EmptyString,
     Some (ErrBadDeviceID s (ErrTooLong (String.length s) MaxDeviceIDLen)))
  else
    match firstBadRune s with
    | Some r => (EmptyString, Some (ErrBadDeviceID s (ErrBadLabelRune r)))
    | None => (s, None)
    end.

(** *** Specification vocabulary *)

Fixpoint allLabelRunes (s : string) : bool :=
  match s with
  | EmptyString => true
  | String c s' => isLabelRune c && allLabelRunes s'
  end.

(** The device-id grammar of the spec. *)
Definition validDeviceID (s : string) : bool :=
  (String.length s <=? 8)%nat && allLabelRunes s.

(** *** Error texts *)

Definition idErrorText (e : idError) : string :=
  match e with
  | ErrTooLong got max =>
      "too long: got " ++ Itoa got ++ " bytes, max " ++ Itoa max
  | ErrBadLabelRune r => "bad domain name label rune " ++ quotedRune r
  end.

Definition deviceIDErrorText (e : deviceIDError) : string :=
  match e with
  | ErrBadDeviceID s err =>
      "bad device id " ++ quoted s ++ ": " ++ idErrorText err
  end.

End agd.

(** ** Package [internal/dnssvc]: the device id of a request *)

(** Of this package only the tests [TestService_Wrap_deviceID] and
    [TestService_Wrap_deviceIDHTTPS] are among the source files; the
    functions below follow the policy of the spec and give the results
    that those tests require. *)

Module dnssvc.

Import strings agd.

(** [dnsserver.ClientInfo]: the server name of the TLS handshake and the
    path of the request URL, if there is one. *)
Record ClientInfo : Type := mkClientInfo {
  TLSServerName : string;
  URLPath : option string
}.

Inductive urlError : Type :=
| ErrBadPath (path : string)
    (* "bad path %q" *)
| ErrExtraParts (path : string)
    (* "bad path %q: extra parts" *)
| ErrURLDeviceID (err : deviceIDError).

Inductive error : Type :=
| ErrHTTPURLCheck (err : urlError)
    (* "http url device id check: %w" *)
| ErrTLSServerNameCheck (err : deviceIDError).
    (* "tls server name device id check: %w" *)

(** [s] without one trailing byte [c], if it ends with it. *)
Fixpoint dropTrailing (c : ascii) (s : string) : string :=
  match s with
  | EmptyString => EmptyString
  | String d EmptyString => if Ascii.eqb c d then EmptyString else s
  | String d s' => String d (dropTrailing c s')
  end.

(** Modelled from the spec: [deviceIDFromURL], which is not among the
    source files.  The path of a DoH request is [/dns-query/<id>[/]]:
    without an [<id>] segment there is no device id, with one it must be
    a valid device id, and further segments are an error; any other path
    is a bad path, as in [TestService_Wrap_deviceIDHTTPS]. *)
Definition deviceIDFromURL (path : string) : DeviceID * option urlError :=
  match Split (dropTrailing "/" path) "/" with
  | EmptyString :: first :: rest =>
      if negb (String.eqb first "dns-query") then
        (EmptyString, Some (ErrBadPath path))
      else
        match rest with
        | [] => (EmptyString, None)
        | [id] =>
            match NewDeviceID id with
            | (_, Some err) => (EmptyString, Some (ErrURLDeviceID err))
            | (id, None) => (id, None)
            end
        | _ => (EmptyString, Some (ErrExtraParts path))
        end
  | _ => (EmptyString, Some (ErrBadPath path))
  end.

(** The label that replaces [*] when [cliSrvName] matches the wildcard
    [*.<suffix>] with exactly one label before the suffix. *)
Definition matchWildcard (cliSrvName wildcard : string) : option string :=
  match CutPrefix wildcard "*." with
  | None => None
  | Some suffix =>
      match Cut cliSrvName "." with
      | None => None
      | Some (label, rest) =>
          if String.eqb rest suffix && negb (String.eqb label EmptyString)
          then Some label
          else None
      end
  end.

Fixpoint matchDomain (cliSrvName : string) (wildcards : list string)
  : option string :=
  match wildcards with
  | [] => None
  | wildcard :: rest =>
      match matchWildcard cliSrvName wildcard with
      | Some label => Some label
      | None => matchDomain cliSrvName rest
      end
  end.

(** Modelled from the spec: [deviceIDFromCliSrvName], which is not among
    the source files.  If the server name matches some wildcard
    [*.<suffix>] so that exactly one label replaces [*], that label is
    the candidate device id; a server name that matches no wildcard in
    this way (the bare suffix, a deeper subdomain, another domain, no
    server name) gives no device id and no error. *)
Definition deviceIDFromCliSrvName (cliSrvName : string)
  (wildcards : list string) : DeviceID * option deviceIDError :=
  if String.eqb cliSrvName EmptyString then (EmptyString, None)
  else
    match matchDomain cliSrvName wildcards with
    | None => (EmptyString, None)
    | Some label => NewDeviceID label
    end.

(** Modelled from the spec: [deviceIDFromContext], which is not among
    the source files.  Over DoH the URL path is looked at first; when it
    gives no device id and no error, and over every other protocol, the
    TLS server name is matched against the wildcards. *)
Definition deviceIDFromContext (ci : ClientInfo) (proto : Protocol)
  (wildcards : list string) : DeviceID * option error :=
  let fromServerName :=
    match deviceIDFromCliSrvName (TLSServerName ci) wildcards with
    | (_, Some err) => (EmptyString, Some (ErrTLSServerNameCheck err))
    | (id, None) => (id, None)
    end in
  match proto, URLPath ci with
  | ProtoDoH, Some path =>
      match deviceIDFromURL path with
      | (_, Some err) => (EmptyString, Some (ErrHTTPURLCheck err))
      | (id, None) =>
          if negb (String.eqb id EmptyString) then (id, None)
          else fromServerName
      end
  | _, _ => fromServerName
  end.

(** *** Error texts *)

Definition urlErrorText (e : urlError) : string :=
  match e with
  | ErrBadPath path => "bad path " ++ quoted path
  | ErrExtraParts path => "bad path " ++ quoted path ++ ": extra parts"
  | ErrURLDeviceID err => deviceIDErrorText err
  end.

Definition errorText (e : error) : string :=
  match e with
  | ErrHTTPURLCheck err => "http url device id check: " ++ urlErrorText err
  | ErrTLSServerNameCheck err =>
      "tls server name device id check: " ++ deviceIDErrorText err
  end.

(** [testutil.AssertErrorMsg] compares the message of the error, or the
    empty string for no error. *)
Definition errMsg (r : DeviceID * option error) : DeviceID * string :=
  match r with
  | (id, Some e) => (id, errorText e)
  | (id, None) => (id, EmptyString)
  end.

(** *** Specification vocabulary *)

(** [cliSrvName] is [<label>.<suffix>] with exactly one label before the
    suffix. *)
Definition oneLabelBefore (cliSrvName suffix label : string) : Prop :=
  cliSrvName = label ++ "." ++ suffix /\
  label <> EmptyString /\ free "." label = true.

End dnssvc.

(** ** Package [internal/dnsserver]: the JSON form of a message *)

(** Of the JSON codec only the test [TestDNSMsgToJSONMsg] is among the
    source files; the functions below follow the spec's description of the
    record data, with the text forms of the Go library written out. *)

Module dnsserver.

Import strings.

Record JSONQuestion : Type := mkJSONQuestion {
  qName : string;
  qType : Z
}.

Record JSONAnswer : Type := mkJSONAnswer {
  Name : string;
  Type_ : Z;
  Class : Z;
  TTL : Z;
  Data : string
}.

Record JSONMsg : Type := mkJSONMsg {
  Status : Z;
  Truncated : bool;            (* TC *)
  RecursionDesired : bool;     (* RD *)
  RecursionAvailable : bool;   (* RA *)
  AuthenticatedData : bool;    (* AD *)
  CheckingDisabled : bool;     (* CD *)
  Question : list JSONQuestion;
  Answer : list JSONAnswer;
  Authority : list JSONAnswer;
  Extra : list JSONAnswer
}.

(** *** [net.IP.String] *)

Definition byteN (b : byte) : N := Byte.to_N b.

(** Lowercase hexadecimal without leading zeros. *)
Definition hex (n : N) : string :=
  HexadecimalString.NilZero.string_of_uint (N.to_hex_uint n).

(** Two hexadecimal digits of a byte, for [hexString]. *)
Definition hex2 (b : byte) : string :=
  hex (byteN b / 16) ++ hex (byteN b mod 16).

Definition dotted (ip : list byte) : string :=
  Join (map (fun b => Itoa (N.to_nat (byteN b))) ip) ".".

Definition v4InV6Prefix : list byte :=
  [x00; x00; x00; x00; x00; x00; x00; x00; x00; x00; xff; xff].

(** [IP.To4]: the four bytes of an IPv4 address, also when it is kept in
    sixteen bytes. *)
Definition To4 (ip : list byte) : option (list byte) :=
  if (List.length ip =? 4)%nat then Some ip
  else if (List.length ip =? 16)%nat
          && forallb (fun p => Byte.eqb (fst p) (snd p))
               (combine (firstn 12 ip) v4InV6Prefix)
  then Some (skipn 12 ip)
  else None.

(** The eight 16-bit groups of an IPv6 address. *)
Fixpoint groups (ip : list byte) : list N :=
  match ip with
  | h :: l :: rest => (byteN h * 256 + byteN l)%N :: groups rest
  | _ => []
  end.

Fixpoint zeroRun (gs : list N) : nat :=
  match gs with
  | 0%N :: rest => S (zeroRun rest)
  | _ => O
  end.

(** The first longest run of zero groups: its start and its length. *)
Fixpoint longestRun (gs : list N) (i : nat) (best : nat * nat) : nat * nat :=
  match gs with
  | [] => best
  | _ :: rest =>
      let n := zeroRun gs in
      longestRun rest (S i) (if (snd best <? n)%nat then (i, n) else best)
  end.

(** RFC 5952: the longest run of two or more zero groups is written
    [::]. *)
Definition string6 (gs : list N) : string :=
  let (start, n) := longestRun gs 0 (O, O) in
  if (n <? 2)%nat then Join (map hex gs) ":"
  else
    Join (map hex (firstn start gs)) ":" ++ "::"
      ++ Join (map hex (skipn (start + n) gs)) ":".

Definition IPString (ip : list byte) : string :=
  if (List.length ip =? 0)%nat then "<nil>"
  else if negb (List.length ip =? 4)%nat && negb (List.length ip =? 16)%nat
  then "?" ++ concat EmptyString (map hex2 ip)
  else
    match To4 ip with
    | Some p4 => dotted p4
    | None => string6 (groups ip)
    end.

(** *** Base64, the standard encoding with padding *)

Definition alphabet : string :=
  "ABCDEFGHIJKLMNOPQRSTUVWXYZabcdefghijklmnopqrstuvwxyz0123456789+/".

Definition b64char (n : N) : string :=
  match String.get (N.to_nat n) alphabet with
  | Some c => String c EmptyString
  | None => EmptyString
  end.

Fixpoint toBase64 (bs : list byte) : string :=
  match bs with
  | [] => EmptyString
  | [a] =>
      let n := (byteN a * 65536)%N in
      b64char (n / 262144) ++ b64char (n / 4096 mod 64) ++ "=="
  | [a; b] =>
      let n := (byteN a * 65536 + byteN b * 256)%N in
      b64char (n / 262144) ++ b64char (n / 4096 mod 64)
        ++ b64char (n / 64 mod 64) ++ "="
  | a :: b :: c :: rest =>
      let n := (byteN a * 65536 + byteN b * 256 + byteN c)%N in
      b64char (n / 262144) ++ b64char (n / 4096 mod 64)
        ++ b64char (n / 64 mod 64) ++ b64char (n mod 64)
        ++ toBase64 rest
  end.

(** *** The text of the record data *)

Definition svcbKey (kv : dns.SVCBKeyValue) : string :=
  match kv with
  | dns.SVCBAlpn _ => "alpn"
  | dns.SVCBECHConfig _ => "ech"
  | dns.SVCBIPv4Hint _ => "ipv4hint"
  | dns.SVCBIPv6Hint _ => "ipv6hint"
  end.

Definition svcbValue (kv : dns.SVCBKeyValue) : string :=
  match kv with
  | dns.SVCBAlpn alpn => Join alpn ","
  | dns.SVCBECHConfig ech => toBase64 ech
  | dns.SVCBIPv4Hint hint => Join (map IPString hint) ","
  | dns.SVCBIPv6Hint hint => Join (map IPString hint) ","
  end.

(** RFC 9460 presentation: priority, target, then [key="value"] for
    each parameter. *)
Definition svcbString (priority : Z) (target : string)
  (value : list dns.SVCBKeyValue) : string :=
  Itoa (Z.to_nat priority) ++ " " ++ target
    ++ concat EmptyString
         (map (fun kv => " " ++ svcbKey kv ++ "=" ++ quoted (svcbValue kv))
            value).

Definition rdata (rr : dns.RR) : string :=
  match rr with
  | dns.A _ a => IPString a
  | dns.AAAA _ aaaa => IPString aaaa
  | dns.CNAME _ target => target
  | dns.TXT _ txt => Join (map quoted txt) " "
  | dns.SVCB _ priority target value => svcbString priority target value
  | dns.OPT _ _ => EmptyString
  | dns.RFC3597 _ data => data
  end.

Definition rrToJSON (rr : dns.RR) : JSONAnswer :=
  let hdr := dns.Header rr in
  {| Name := dns.Name hdr;
     Type_ := dns.Rrtype hdr;
     Class := dns.Class hdr;
     TTL := dns.Ttl hdr;
     Data := rdata rr |}.

(** Modelled from the spec: [DNSMsgToJSONMsg], which is not among the
    source files.  The JSON form of a message has the fields [Status],
    [TC], [RD], [RA], [AD], [CD], [Question], [Answer], [Authority] and
    [Extra]; each record gives its data as text: an A or AAAA record the
    literal IP address, a CNAME record its target, a TXT record its
    strings in double quotes separated by spaces, an HTTPS or SVCB record
    its RFC 9460 presentation. *)
Definition DNSMsgToJSONMsg (m : dns.Msg) : JSONMsg :=
  {| Status := dns.Rcode (dns.Hdr m);
     Truncated := dns.Truncated (dns.Hdr m);
     RecursionDesired := dns.RecursionDesired (dns.Hdr m);
     RecursionAvailable := dns.RecursionAvailable (dns.Hdr m);
     AuthenticatedData := dns.AuthenticatedData (dns.Hdr m);
     CheckingDisabled := dns.CheckingDisabled (dns.Hdr m);
     Question :=
       map (fun q => {| qName := dns.QName q; qType := dns.Qtype q |})
         (elems (dns.Questions m));
     Answer := map rrToJSON (elems (dns.Answer m));
     Authority := map rrToJSON (elems (dns.Ns m));
     Extra := map rrToJSON (elems (dns.Extra m)) |}.

(** *** The message of [TestDNSMsgToJSONMsg] *)

(** [net.ParseIP] gives sixteen bytes, also for an IPv4 address. *)
Definition ip_127_0_0 (last : byte) : list byte :=
  v4InV6Prefix ++ [x7f; x00; x00; last].

Definition ip_20 (second : byte) : list byte :=
  [x20; second; x00; x00; x00; x00; x00; x00;
   x00; x00; x00; x00; x00; x00; x00; x00].

Definition testHdr (rrtype class ttl : Z) : dns.RR_Header :=
  {| dns.Name := "example.org"; dns.Rrtype := rrtype; dns.Class := class;
     dns.Ttl := ttl |}.

Definition testMsg (id : Z) : dns.Msg :=
  {| dns.Hdr :=
       {| dns.Id := id; dns.Response := true; dns.Opcode := 0;
          dns.Authoritative := true; dns.Truncated := false;
          dns.RecursionDesired := true; dns.RecursionAvailable := true;
          dns.Zero := false; dns.AuthenticatedData := true;
          dns.CheckingDisabled := true; dns.Rcode := dns.RcodeSuccess |};
     dns.Compress := false;
     dns.Questions :=
       Some [{| dns.QName := "example.org"; dns.Qtype := dns.TypeA;
                dns.Qclass := dns.ClassINET |}];
     dns.Answer :=
       Some [dns.A (testHdr dns.TypeA dns.ClassINET 200) (ip_127_0_0 x01);
             dns.AAAA (testHdr dns.TypeAAAA dns.ClassINET 200) (ip_20 x00);
             dns.TXT (testHdr dns.TypeTXT dns.ClassINET 100)
               ["value1"; "value2"];
             dns.CNAME (testHdr dns.TypeCNAME dns.ClassINET 100)
               "example.com";
             dns.SVCB (testHdr dns.TypeHTTPS dns.ClassINET 100) 0
               "example.com"
               [dns.SVCBAlpn ["h2"; "h3"];
                dns.SVCBECHConfig [x01; x02];
                dns.SVCBIPv4Hint [ip_127_0_0 x01; ip_127_0_0 x02];
                dns.SVCBIPv6Hint [ip_20 x00; ip_20 x01]]];
     dns.Ns := None;
     dns.Extra :=
       Some [dns.AAAA (testHdr dns.TypeAAAA dns.ClassCHAOS 200)
               (ip_20 x00)] |}.

(** The values that the test requires of the result. *)
Definition wantAnswer : list JSONAnswer :=
  [ {| Name := "example.org"; Type_ := dns.TypeA; Class := dns.ClassINET;
       TTL := 200; Data := "127.0.0.1" |};
    {| Name := "example.org"; Type_ := dns.TypeAAAA; Class := dns.ClassINET;
       TTL := 200; Data := "2000::" |};
    {| Name := "example.org"; Type_ := dns.TypeTXT; Class := dns.ClassINET;
       TTL := 100; Data := quoted "value1" ++ " " ++ quoted "value2" |};
    {| Name := "example.org"; Type_ := dns.TypeCNAME; Class := dns.ClassINET;
       TTL := 100; Data := "example.com" |};
    {| Name := "example.org"; Type_ := dns.TypeHTTPS; Class := dns.ClassINET;
       TTL := 100;
       Data := "0 example.com alpn=" ++ quoted "h2,h3"
               ++ " ech=" ++ quoted "AQI="
               ++ " ipv4hint=" ++ quoted "127.0.0.1,127.0.0.2"
               ++ " ipv6hint=" ++ quoted "2000::,2001::" |} ].

Definition wantExtra : list JSONAnswer :=
  [ {| Name := "example.org"; Type_ := dns.TypeAAAA; Class := dns.ClassCHAOS;
       TTL := 200; Data := "2000::" |} ].

End dnsserver.

(** ** Package [internal/dnsmsg]: the DNSSEC OK bit *)

Module dnsmsg_do.

Import dns.

(** [Msg.IsEdns0] with the record it returns: the header and the options
    of the last record of the additional section whose header has the type
    OPT. *)
Fixpoint lastOPTRecord (rrs : list RR) (found : option (RR_Header * list EDNS0))
  : option (RR_Header * list EDNS0) :=
  match rrs with
  | [] => found
  | OPT hdr o :: rest =>
      lastOPTRecord rest
        (if Rrtype hdr =? TypeOPT then Some (hdr, o) else found)
  | _ :: rest => lastOPTRecord rest found
  end.

Definition IsEdns0Record (m : Msg) : option (RR_Header * list EDNS0) :=
  lastOPTRecord (elems (Extra m)) None.

(** The flag [_DO = 1 << 15] of the extended TTL of an OPT record. *)
Definition _DO : Z := Z.shiftl 1 15.

(** [OPT.Do]: [rr.Hdr.Ttl&_DO == _DO]. *)
Definition Do (hdr : RR_Header) : bool := Z.land (Ttl hdr) _DO =? _DO.

(** [IsDO] returns true if [msg] has an EDNS option pseudosection and that
    pseudosection has the DNSSEC OK bit set. *)
Definition IsDO (msg : Msg) : bool :=
  match IsEdns0Record msg with
  | None => false
  | Some (hdr, _) => Do hdr
  end.

(** *** Specification vocabulary *)

(** No record of the list has a header of the type OPT. *)
Definition noOPT (rrs : list RR) : bool :=
  forallb (fun rr => negb (Rrtype (Header rr) =? TypeOPT)) rrs.

(** No option of the list is a client subnet. *)
Definition noSubnet (opts : list EDNS0) : bool :=
  forallb (fun o => negb (isSubnet o)) opts.

End dnsmsg_do.

(** ** More sample values *)

Module sample_ecs.

Import dns.

(** The client subnet [1.2.3.0/24], well-formed, with scope 16. *)
Definition esn_1_2_3_0_24 : EDNS0_SUBNET :=
  {| Code := 8; Family := 1; SourceNetmask := 24; SourceScope := 16;
     Address := [x01; x02; x03; x00] |}.

(** The client subnet [1.2.3.0/33]: the netmask is longer than an IPv4
    address. *)
Definition esn_1_2_3_0_33 : EDNS0_SUBNET :=
  {| Code := 8; Family := 1; SourceNetmask := 33; SourceScope := 0;
     Address := [x01; x02; x03; x00] |}.

(** The host address [1.2.3.4/32]. *)
Definition esn_1_2_3_4_32 : EDNS0_SUBNET :=
  {| Code := 8; Family := 1; SourceNetmask := 32; SourceScope := 0;
     Address := [x01; x02; x03; x04] |}.

(** A query with the DO bit set and two client-subnet options: a
    well-formed one, then a malformed one. *)
Definition hdrOPT_DO : RR_Header :=
  {| Name := "."; Rrtype := TypeOPT; Class := 4096; Ttl := 32768 |}.

Definition msg_two_subnets : Msg :=
  {| Hdr := sample.emptyHdr; Compress := false;
     Questions := Some [{| QName := "example.org."; Qtype := TypeA;
                           Qclass := ClassINET |}];
     Answer := None; Ns := None;
     Extra := Some [OPT hdrOPT_DO
                      [OptOther 10 []; OptSubnet esn_1_2_3_0_24;
                       OptSubnet sample.esn_1_2_3_4_24]] |}.

End sample_ecs.

(** ** Package [net/http] of the Go standard library: headers *)

Module http.

Definition isLower (c : ascii) : bool :=
  let n := nat_of_ascii c in ((97 <=? n) && (n <=? 122))%nat.

Definition isUpper (c : ascii) : bool :=
  let n := nat_of_ascii c in ((65 <=? n) && (n <=? 90))%nat.

Definition isDigit (c : ascii) : bool :=
  let n := nat_of_ascii c in ((48 <=? n) && (n <=? 57))%nat.

(** [validHeaderFieldByte]: the bytes of an RFC 7230 token. *)
Definition validHeaderFieldByte (c : ascii) : bool :=
  isLower c || isUpper c || isDigit c
  || existsb (Ascii.eqb c)
       ["!"; "#"; "$"; "%"; "&"; "'"; "*"; "+"; "-"; "."; "^"; "_"; "`";
        "|"; "~"]%char.

Fixpoint allValid (s : string) : bool :=
  match s with
  | EmptyString => true
  | String c s' => validHeaderFieldByte c && allValid s'
  end.

(** [toLower = 'a' - 'A']. *)
Definition toLower : nat := 32.

(** The loop of [canonicalMIMEHeaderKey]: upper case for the first letter
    and for a letter after a dash, lower case for the other letters. *)
Fixpoint canonicalize (upper : bool) (s : string) : string :=
  match s with
  | EmptyString => EmptyString
  | String c s' =>
      let c :=
        if upper && isLower c then ascii_of_nat (nat_of_ascii c - toLower)
        else if negb upper && isUpper c
             then ascii_of_nat (nat_of_ascii c + toLower)
             else c in
      String c (canonicalize (Ascii.eqb c "-") s')
  end.

(** [textproto.CanonicalMIMEHeaderKey]: a key with a byte that is not valid
    in a header field name is returned as it is. *)
Definition CanonicalMIMEHeaderKey (s : string) : string :=
  if allValid s then canonicalize true s else s.

(** [http.Header] is a [map[string][]string]: a key is absent, or present
    with a slice of values that may be [nil]. *)
Definition Header : Type := string -> option (slice string).

(** [h[key] = values]. *)
Definition store (key : string) (values : slice string) (h : Header) : Header :=
  fun k => if String.eqb k key then Some values else h k.

(** [delete(h, key)]. *)
Definition delete (key : string) (h : Header) : Header :=
  fun k => if String.eqb k key then None else h k.

(** [Header.Set] and [Header.Del] canonicalize the key. *)
Definition Set_ (key value : string) (h : Header) : Header :=
  store (CanonicalMIMEHeaderKey key) (Some [value]) h.

Definition Del (key : string) (h : Header) : Header :=
  delete (CanonicalMIMEHeaderKey key) h.

(** The map literal [http.Header{}]. *)
Definition emptyHeader : Header := fun _ => None.

End http.

(** ** Package [internal/websvc]: the requests of the linked-IP proxy *)

Module websvc_proxy.

Import http.

(** The fields of [url.URL] and [http.Request] that the proxy reads or
    writes. *)
Record URL : Type := mkURL {
  Scheme : string;
  URLHost : string;
  Path : string;
  RawQuery : string
}.

Record Request : Type := mkRequest {
  Method : string;
  ReqURL : URL;
  Host : string;
  RemoteAddr : string;
  ReqHeader : Header
}.

Section Proxy.

(** The header names and values of package [internal/agdhttp], the user
    agent that [agdhttp.UserAgent] returns, and [netutil.SplitHost] of the
    golibs module are not among the source files. *)
Variable HdrNameUserAgent : string.
Variable HdrNameServer : string.
Variable HdrNameXRequestID : string.
Variable HdrNameAccessControlAllowOrigin : string.
Variable HdrValWildcard : string.
Variable UserAgent : string.
Variable SplitHost : string -> option string.

(** The [Director] of the reverse proxy: the scheme and the host of the
    API URL, no [X-Forwarded-For], the user agent of this program. *)
Definition director (apiURL : URL) (r : Request) : Request :=
  let u := ReqURL r in
  let hdr := ReqHeader r in
  let hdr := store "X-Forwarded-For" None hdr in
  let hdr := Set_ HdrNameUserAgent UserAgent hdr in
  {| Method := Method r;
     ReqURL := {| Scheme := Scheme apiURL; URLHost := URLHost apiURL;
                  Path := Path u; RawQuery := RawQuery u |};
     Host := URLHost apiURL;
     RemoteAddr := RemoteAddr r;
     ReqHeader := hdr |}.

(** [ModifyResponse] of the reverse proxy, on the header of the response of
    the backend; it returns no error. *)
Definition modifyResponse (hdr : Header) : Header * option unit :=
  let hdr := Del HdrNameServer hdr in
  let hdr := Set_ HdrNameAccessControlAllowOrigin HdrValWildcard hdr in
  (hdr, None).

(** What [linkedIPProxy.ServeHTTP] does with a request, with the request
    that it hands to the reverse proxy. *)
Inductive handled : Type :=
| Forward (r : Request)
| Status500
| Robots
| Status404.

(** [linkedIPProxy.ServeHTTP] on the request [r]; [reqID] is the new
    request ID that [agd.NewRequestID] returns.  The three headers are
    deleted before the remote address is split. *)
Definition ServeHTTPRequest (reqID : string) (r : Request) : handled :=
  let m := Method r in
  let p := Path (ReqURL r) in
  let rAddr := RemoteAddr r in
  if websvc.shouldProxy m p then
    let hdr := ReqHeader r in
    let hdr := Del "Forwarded" hdr in
    let hdr := Del "True-Client-IP" hdr in
    let hdr := Del "X-Real-IP" hdr in
    match SplitHost rAddr with
    | None => Status500
    | Some ip =>
        let hdr := Set_ "CF-Connecting-IP" ip hdr in
        let hdr := Set_ HdrNameXRequestID reqID hdr in
        Forward {| Method := Method r; ReqURL := ReqURL r; Host := Host r;
                   RemoteAddr := RemoteAddr r; ReqHeader := hdr |}
    end
  else if String.eqb p "/robots.txt" then Robots
  else Status404.

End Proxy.

(** *** Sample values *)

(** A request that claims a client address in three headers. *)
Definition spoofedHeader : Header :=
  store "Forwarded" (Some ["for=203.0.113.7"])
    (store "True-Client-Ip" (Some ["203.0.113.7"])
       (store "X-Real-Ip" (Some ["203.0.113.7"])
          (store "Accept" (Some ["*/*"]) emptyHeader))).

Definition spoofedRequest : Request :=
  {| Method := "GET";
     ReqURL := {| Scheme := ""; URLHost := ""; Path := "/linkip/dev/enc";
                  RawQuery := "" |};
     Host := "link.example.org";
     RemoteAddr := "192.0.2.1:4711";
     ReqHeader := spoofedHeader |}.

(** A [SplitHost] for the sample: the text before the first colon. *)
Definition sampleSplitHost (rAddr : string) : option string :=
  match strings.Cut rAddr ":" with
  | Some (host, _) => Some host
  | None => None
  end.

End websvc_proxy.

(** ** Package [internal/cmd]: the filters configuration *)

Module cmd_filters.

(** [filtersConfig]; a [timeutil.Duration] is a number of nanoseconds in an
    [int64]. *)
Record filtersConfig : Type := mkFiltersConfig {
  CustomFilterCacheSize : Z;
  ResponseTTL : Z;
  RefreshIvl : Z;
  RefreshTimeout : Z
}.

(** The errors of [validate]: [errNilConfig], and
    [newMustBePositiveError(prop, v)] for the property [prop] of value
    [v]; both are declared outside the source files. *)
Inductive error : Type :=
| errNilConfig
| MustBePositiveError (prop : string) (v : Z).

(** [validate] returns an error if the filters configuration is invalid. *)
Definition validate (c : option filtersConfig) : option error :=
  match c with
  | None => Some errNilConfig
  | Some c =>
      if ResponseTTL c <=? 0
      then Some (MustBePositiveError "response_ttl" (ResponseTTL c))
      else if RefreshIvl c <=? 0
      then Some (MustBePositiveError "refresh_interval" (RefreshIvl c))
      else if RefreshTimeout c <=? 0
      then Some (MustBePositiveError "refresh_timeout" (RefreshTimeout c))
      else None
  end.

End cmd_filters.

(** ** Package [internal/dnsserver], tests: reading a JSON answer *)

Module dnsserver_test.

Import dns.

(** [append(s, x)] on a slice that may be [nil]. *)
Definition append {A : Type} (s : slice A) (x : A) : slice A :=
  Some (elems s ++ [x])%list.

(** How a call ends: it returns, or it panics. *)
Inductive outcome (E : Type) : Type :=
| Returned (m : option Msg) (err : option E)
| Panic.

Arguments Returned {E} m err.
Arguments Panic {E}.

Section Unpack.

(** [json.Unmarshal] into a [*dnsserver.JSONMsg], which stays [nil] for the
    JSON text [null], and [net.ParseIP]. *)
Variable E : Type.
Variable Unmarshal : list byte -> option dnsserver.JSONMsg * option E.
Variable ParseIP : string -> IP.

Definition questions (qs : list dnsserver.JSONQuestion) : slice Question :=
  fold_left
    (fun m q =>
       append m {| QName := dnsserver.qName q; Qtype := dnsserver.qType q;
                   Qclass := 0 |})
    qs None.

(** The loop over the answers; [None] is the panic for a type other than A
    and AAAA. *)
Fixpoint answers (l : list dnsserver.JSONAnswer) (acc : slice RR)
  : option (slice RR) :=
  match l with
  | [] => Some acc
  | a :: rest =>
      let rrHeader :=
        {| Name := dnsserver.Name a; Rrtype := dnsserver.Type_ a;
           Class := 0; Ttl := dnsserver.TTL a |} in
      if dnsserver.Type_ a =? TypeA
      then answers rest (append acc (A rrHeader (ParseIP (dnsserver.Data a))))
      else if dnsserver.Type_ a =? TypeAAAA
      then answers rest (append acc (AAAA rrHeader (ParseIP (dnsserver.Data a))))
      else None
  end.

Definition unpackJSONMsg (b : list byte) : outcome E :=
  match Unmarshal b with
  | (_, Some err) => Returned None (Some err)
  | (None, None) => Panic
  | (Some jsonMsg, None) =>
      let hdr :=
        {| Id := 0; Response := true; Opcode := 0; Authoritative := false;
           Truncated := dnsserver.Truncated jsonMsg;
           RecursionDesired := dnsserver.RecursionDesired jsonMsg;
           RecursionAvailable := dnsserver.RecursionAvailable jsonMsg;
           Zero := false;
           AuthenticatedData := dnsserver.AuthenticatedData jsonMsg;
           CheckingDisabled := dnsserver.CheckingDisabled jsonMsg;
           Rcode := dnsserver.Status jsonMsg |} in
      match answers (dnsserver.Answer jsonMsg) None with
      | None => Panic
      | Some answer =>
          Returned
            (Some {| Hdr := hdr; Compress := false;
                     Questions := questions (dnsserver.Question jsonMsg);
                     Answer := answer; Ns := None; Extra := None |})
            None
      end
  end.

End Unpack.

Arguments unpackJSONMsg {E} Unmarshal ParseIP b.

(** *** Specification vocabulary *)

(** The record header that [unpackJSONMsg] builds for an answer: no
    class. *)
Definition jsonHeader (a : dnsserver.JSONAnswer) : RR_Header :=
  {| Name := dnsserver.Name a; Rrtype := dnsserver.Type_ a; Class := 0;
     Ttl := dnsserver.TTL a |}.

Definition jsonQuestion (q : dnsserver.JSONQuestion) : Question :=
  {| QName := dnsserver.qName q; Qtype := dnsserver.qType q; Qclass := 0 |}.

(** The answer is of type A or AAAA. *)
Definition supported (a : dnsserver.JSONAnswer) : bool :=
  (dnsserver.Type_ a =? TypeA) || (dnsserver.Type_ a =? TypeAAAA).

(** *** Sample values *)

Definition sampleJSON : dnsserver.JSONMsg :=
  {| dnsserver.Status := 0; dnsserver.Truncated := false;
     dnsserver.RecursionDesired := true; dnsserver.RecursionAvailable := true;
     dnsserver.AuthenticatedData := false; dnsserver.CheckingDisabled := false;
     dnsserver.Question :=
       [{| dnsserver.qName := "example.org."; dnsserver.qType := TypeA |}];
     dnsserver.Answer :=
       [{| dnsserver.Name := "example.org."; dnsserver.Type_ := TypeA;
           dnsserver.Class := ClassINET; dnsserver.TTL := 300;
           dnsserver.Data := "93.184.216.34" |}];
     dnsserver.Authority := [];
     dnsserver.Extra := [] |}.

End dnsserver_test.

(** * Properties *)

(** ** Masking an address to a prefix *)

Module netip_facts.

Import netip.

Lemma land_absorb_iff x m :
  Z.land x m = x <->
  (forall j, 0 <= j -> Z.testbit x j = true -> Z.testbit m j = true).
Proof.
  split.
  - intros H j Hj Hx. rewrite <- H in Hx. rewrite Z.land_spec in Hx.
    apply andb_true_iff in Hx. tauto.
  - intros H. apply Z.bits_inj'. intros j Hj. rewrite Z.land_spec.
    destruct (Z.testbit x j) eqn:Hx; [|reflexivity].
    now rewrite (H j Hj Hx).
Qed.

Lemma u64max_ones : u64max = Z.ones 64.
Proof. reflexivity. Qed.

Lemma testbit_u64_high x j : 0 <= x < 2 ^ 64 -> 64 <= j -> Z.testbit x j = false.
Proof.
  intros Hx Hj. rewrite <- (Z.mod_small x (2 ^ 64)) by assumption.
  apply Z.mod_pow2_bits_high. lia.
Qed.

Lemma mask6_hi_spec n j :
  0 <= n -> 0 <= j ->
  Z.testbit (hi (mask6 n)) j = (j <? 64) && (64 <=? j + n).
Proof.
  intros Hn Hj. cbn [mask6 hi]. unfold not64, shr64.
  rewrite Z.lxor_spec, Z.shiftr_spec by assumption.
  rewrite u64max_ones, !Z.testbit_ones_nonneg by lia.
  destruct (j <? 64) eqn:A, (j + n <? 64) eqn:B, (64 <=? j + n) eqn:C; try reflexivity; lia.
Qed.

Lemma mask6_lo_spec n j :
  0 <= n <= 128 -> 0 <= j ->
  Z.testbit (lo (mask6 n)) j = (j <? 64) && (128 - n <=? j).
Proof.
  intros Hn Hj. cbn [mask6 lo]. unfold shl64.
  destruct (j <? 64) eqn:A.
  - rewrite Z.mod_pow2_bits_low by lia.
    rewrite Z.shiftl_spec by assumption.
    rewrite u64max_ones, Z.testbit_ones by lia.
    destruct (0 <=? j - (128 - n)) eqn:B, (j - (128 - n) <? 64) eqn:C, (128 - n <=? j) eqn:D; try reflexivity; lia.
  - rewrite Z.mod_pow2_bits_high by lia. reflexivity.
Qed.

Lemma BitLen_bound a : 0 <= BitLen a <= 128.
Proof. unfold BitLen. destruct (z a); lia. Qed.

Lemma PrefixFrom_valid a n :
  isZero a = false -> 0 <= n <= BitLen a ->
  PrefixFrom a n = {| ip := withoutZone a; bitsPlusOne := n + 1 |}.
Proof.
  intros Hz Hn. pose proof (BitLen_bound a) as Hb. unfold PrefixFrom. rewrite Hz.
  replace (0 <=? n) with true by (symmetry; apply Z.leb_le; lia).
  replace (n <=? BitLen a) with true by (symmetry; apply Z.leb_le; lia).
  cbn [negb andb]. f_equal.
  rewrite (Z.mod_small n) by lia. apply Z.mod_small. lia.
Qed.

Lemma PrefixFrom_IsValid a n :
  IsValid (PrefixFrom a n) = negb (isZero a) && (0 <=? n) && (n <=? BitLen a).
Proof.
  unfold IsValid, PrefixFrom. cbn [bitsPlusOne].
  destruct (negb (isZero a) && (0 <=? n) && (n <=? BitLen a)) eqn:H; [|reflexivity].
  apply andb_true_iff in H as [H H3]. apply andb_true_iff in H as [H1 H2].
  apply Z.leb_le in H2, H3. pose proof (BitLen_bound a).
  rewrite (Z.mod_small n), Z.mod_small by lia. apply Z.ltb_lt. lia.
Qed.

Lemma zone_eqb_refl zn : zone_eqb zn zn = true.
Proof. destruct zn; cbn; auto using String.eqb_refl. Qed.

(** The masked prefix, for a valid prefix length. *)
Lemma Masked_PrefixFrom a n :
  isZero a = false -> 0 <= n <= BitLen a ->
  Masked (PrefixFrom a n) =
  {| ip := {| addr := and128 (addr a) (mask6 (n + (128 - BitLen a)));
              z := z (withoutZone a) |};
     bitsPlusOne := n + 1 |}.
Proof.
  intros Hz Hn. rewrite (PrefixFrom_valid a n Hz Hn).
  unfold Masked, Bits, AddrPrefix. cbn [ip bitsPlusOne].
  replace (n + 1 - 1) with n by lia.
  replace (n <? 0) with false by (symmetry; apply Z.ltb_ge; lia).
  destruct a as [u zn]. unfold isZero, BitLen, withoutZone, Is6 in *. cbn [z addr] in *.
  destruct zn; try discriminate; cbn [z addr];
    [ replace (32 <? n) with false by (symmetry; apply Z.ltb_ge; lia)
    | replace (128 <? n) with false by (symmetry; apply Z.ltb_ge; lia) .. ];
    cbn [fst]; rewrite PrefixFrom_valid by (cbn; auto; lia);
    unfold withoutZone, Is6; cbn [z addr]; repeat f_equal; try lia.
Qed.

Lemma addr_withoutZone a : addr (withoutZone a) = addr a.
Proof. unfold withoutZone. now destruct (Is6 a). Qed.

Lemma Masked_eqb_iff a n :
  isZero a = false -> 0 <= n <= BitLen a ->
  Prefix_eqb (Masked (PrefixFrom a n)) (PrefixFrom a n) = true <->
  and128 (addr a) (mask6 (n + (128 - BitLen a))) = addr a.
Proof.
  intros Hz Hn. rewrite Masked_PrefixFrom, PrefixFrom_valid by assumption.
  set (mk := mask6 _).
  unfold Prefix_eqb, Addr_eqb. cbn [ip bitsPlusOne addr z].
  rewrite Z.eqb_refl, andb_true_r, zone_eqb_refl, andb_true_r.
  rewrite andb_true_iff, !Z.eqb_eq, addr_withoutZone.
  destruct (addr a) as [h l]. unfold and128. cbn [hi lo].
  split.
  - intros [H1 H2]. now f_equal.
  - intros H. injection H as H1 H2. split; assumption.
Qed.

(** A set bit that absorption [H] sends into the mask lies within the
    prefix, by the bits [spec] of the mask. *)
Ltac refute_by_mask H spec Hbit :=
  apply H in Hbit; [| lia];
  rewrite spec in Hbit by lia;
  apply andb_true_iff in Hbit as [_ Hbit]; apply Z.leb_le in Hbit; lia.

(** Bit [j] of a word, set by [Hbit], is bit [i] of the address. *)
Ltac bit_beyond i j Hbit :=
  exists i; split; [lia|];
  try replace (i <? 64) with true by (symmetry; apply Z.ltb_lt; lia);
  try replace (i <? 64) with false by (symmetry; apply Z.ltb_ge; lia);
  match goal with
  | |- Z.testbit _ ?k = true => replace k with j by lia; exact Hbit
  end.

Lemma mask_absorb_iff a n :
  wfAddr a -> isZero a = false -> 0 <= n <= BitLen a ->
  and128 (addr a) (mask6 (n + (128 - BitLen a))) = addr a <->
  ~ bitsBeyondPrefix a n.
Proof.
  intros [Hh Hl] Hz Hn. pose proof (BitLen_bound a) as Hb.
  remember (n + (128 - BitLen a)) as m eqn:Em.
  assert (Hm : 0 <= m <= 128) by lia.
  transitivity (Z.land (hi (addr a)) (hi (mask6 m)) = hi (addr a) /\
                Z.land (lo (addr a)) (lo (mask6 m)) = lo (addr a)).
  { unfold and128. destruct (addr a) as [h l]. cbn [hi lo]. split.
    - intros H. injection H as H1 H2. split; assumption.
    - intros [H1 H2]. now f_equal. }
  rewrite !land_absorb_iff. unfold bitsBeyondPrefix, bitAt.
  split.
  - intros [H1 H2] [i [Hi Hbit]].
    destruct (z a) eqn:Hza; try discriminate;
      unfold BitLen in *; rewrite Hza in *;
      try (destruct (i <? 64) eqn:Hi64;
           [apply Z.ltb_lt in Hi64 | apply Z.ltb_ge in Hi64]);
      first [ refute_by_mask H1 mask6_hi_spec Hbit
            | refute_by_mask H2 mask6_lo_spec Hbit ].
  - intros Hno. split; intros j Hj Hbit.
    + rewrite mask6_hi_spec by lia.
      destruct (j <? 64) eqn:Hj64.
      2:{ apply Z.ltb_ge in Hj64.
          rewrite testbit_u64_high in Hbit by auto. discriminate. }
      apply Z.ltb_lt in Hj64. cbn [andb]. apply Z.leb_le.
      destruct (Z_le_gt_dec 64 (j + m)) as [|Hlt]; [assumption|].
      exfalso. apply Hno.
      destruct (z a) eqn:Hza; unfold isZero, BitLen in *; rewrite Hza in *;
        try discriminate; try lia; bit_beyond (63 - j) j Hbit.
    + rewrite mask6_lo_spec by lia.
      destruct (j <? 64) eqn:Hj64.
      2:{ apply Z.ltb_ge in Hj64.
          rewrite testbit_u64_high in Hbit by auto. discriminate. }
      apply Z.ltb_lt in Hj64. cbn [andb]. apply Z.leb_le.
      destruct (Z_le_gt_dec (128 - m) j) as [|Hlt]; [assumption|].
      exfalso. apply Hno.
      destruct (z a) eqn:Hza; unfold isZero, BitLen in *; rewrite Hza in *;
        try discriminate;
        [bit_beyond (31 - j) j Hbit | bit_beyond (127 - j) j Hbit ..].
Qed.

End netip_facts.

(** ** EDNS Client Subnet extraction *)

Module dnsmsg_ecs.

Import netip netip_facts dns dnsmsg.

Section ECSFacts.

Variable E : Type.
Variable IPToAddr : IP -> agdnet.AddrFamily -> Addr * option E.

Lemma Masked_check_iff a n :
  wfAddr a -> isZero a = false -> 0 <= n <= BitLen a ->
  Prefix_eqb (Masked (PrefixFrom a n)) (PrefixFrom a n) = true <->
  ~ bitsBeyondPrefix a n.
Proof.
  intros Hwf Hz Hn. rewrite Masked_eqb_iff by assumption.
  now apply mask_absorb_iff.
Qed.

(** An option with set bits beyond its prefix is always an error. *)
Lemma ecsData_bits_beyond esn a :
  IPToAddr (Address esn) (Family esn) = (a, None) ->
  wfAddr a ->
  bitsBeyondPrefix a (SourceNetmask esn) ->
  exists err, ecsData IPToAddr esn = (zeroPrefix, 0, Some err).
Proof.
  intros Hip Hwf Hbits. unfold ecsData.
  destruct (negb (Family esn =? _) && negb (Family esn =? _));
    [eexists; reflexivity|].
  rewrite Hip.
  destruct (IsValid (PrefixFrom a (SourceNetmask esn))) eqn:Hv; cbn [negb];
    [|eexists; reflexivity].
  rewrite PrefixFrom_IsValid in Hv.
  apply andb_true_iff in Hv as [Hv H3]. apply andb_true_iff in Hv as [H1 H2].
  apply Z.leb_le in H2, H3. apply negb_true_iff in H1.
  destruct (Prefix_eqb _ _) eqn:Hc; cbn [negb]; [|eexists; reflexivity].
  apply Masked_check_iff in Hc; [contradiction | assumption | assumption | lia].
Qed.

Lemma ecsData_bits_beyond_error esn a :
  IPToAddr (Address esn) (Family esn) = (a, None) ->
  wfAddr a ->
  Family esn = agdnet.AddrFamilyIPv4 \/ Family esn = agdnet.AddrFamilyIPv6 ->
  isZero a = false -> 0 <= SourceNetmask esn <= BitLen a ->
  bitsBeyondPrefix a (SourceNetmask esn) ->
  ecsData IPToAddr esn =
  (zeroPrefix, 0, Some (ErrBitsBeyondPrefix a (SourceNetmask esn))).
Proof.
  intros Hip Hwf Hfam Hz Hn Hbits. unfold ecsData.
  replace (negb (Family esn =? _) && negb (Family esn =? _)) with false
    by (destruct Hfam as [-> | ->]; reflexivity).
  rewrite Hip, PrefixFrom_IsValid, Hz.
  replace (0 <=? SourceNetmask esn) with true by (symmetry; apply Z.leb_le; lia).
  replace (SourceNetmask esn <=? BitLen a) with true by (symmetry; apply Z.leb_le; lia).
  cbn [negb andb].
  destruct (Prefix_eqb _ _) eqn:Hc; cbn [negb]; [|reflexivity].
  apply Masked_check_iff in Hc; [contradiction | assumption | assumption | lia].
Qed.

Lemma ecsData_within_prefix esn a :
  IPToAddr (Address esn) (Family esn) = (a, None) ->
  wfAddr a ->
  Family esn = agdnet.AddrFamilyIPv4 \/ Family esn = agdnet.AddrFamilyIPv6 ->
  isZero a = false -> 0 <= SourceNetmask esn <= BitLen a ->
  ~ bitsBeyondPrefix a (SourceNetmask esn) ->
  ecsData IPToAddr esn =
  (PrefixFrom a (SourceNetmask esn), SourceScope esn, None).
Proof.
  intros Hip Hwf Hfam Hz Hn Hbits. unfold ecsData.
  replace (negb (Family esn =? _) && negb (Family esn =? _)) with false
    by (destruct Hfam as [-> | ->]; reflexivity).
  rewrite Hip, PrefixFrom_IsValid, Hz.
  replace (0 <=? SourceNetmask esn) with true by (symmetry; apply Z.leb_le; lia).
  replace (SourceNetmask esn <=? BitLen a) with true by (symmetry; apply Z.leb_le; lia).
  cbn [negb andb].
  apply Masked_check_iff in Hbits; [|assumption|assumption|lia].
  now rewrite Hbits.
Qed.

Lemma ecsFromOptions_skip pre rest :
  forallb (fun o => negb (isSubnet o)) pre = true ->
  ecsFromOptions IPToAddr (pre ++ rest) = ecsFromOptions IPToAddr rest.
Proof.
  induction pre as [|o pre IH]; intros H; [reflexivity|].
  cbn [forallb] in H. apply andb_true_iff in H as [Ho Hpre].
  destruct o; [discriminate|]. cbn. now apply IH.
Qed.

Lemma ecsFromOptions_error pre esn post err :
  forallb (fun o => negb (isSubnet o)) pre = true ->
  ecsData IPToAddr esn = (zeroPrefix, 0, Some err) ->
  ecsFromOptions IPToAddr (pre ++ OptSubnet esn :: post) =
  (zeroPrefix, 0, Some (mkBadECSError err)).
Proof.
  intros Hpre Hd. rewrite ecsFromOptions_skip by assumption.
  cbn [ecsFromOptions]. now rewrite Hd.
Qed.

Lemma PrefixFrom_valid_nonzero a n :
  isZero a = false -> 0 <= n <= BitLen a ->
  Prefix_eqb (PrefixFrom a n) zeroPrefix = false.
Proof.
  intros Hz Hn. rewrite PrefixFrom_valid by assumption.
  unfold Prefix_eqb. cbn [bitsPlusOne zeroPrefix].
  replace (n + 1 =? 0) with false by (symmetry; apply Z.eqb_neq; lia).
  apply andb_false_r.
Qed.

Lemma ecsFromOptions_ok pre esn post a :
  forallb (fun o => negb (isSubnet o)) pre = true ->
  isZero a = false -> 0 <= SourceNetmask esn <= BitLen a ->
  ecsData IPToAddr esn = (PrefixFrom a (SourceNetmask esn), SourceScope esn, None) ->
  ecsFromOptions IPToAddr (pre ++ OptSubnet esn :: post) =
  (PrefixFrom a (SourceNetmask esn), SourceScope esn, None).
Proof.
  intros Hpre Hz Hn Hd. rewrite ecsFromOptions_skip by assumption.
  cbn [ecsFromOptions]. rewrite Hd.
  now rewrite PrefixFrom_valid_nonzero by assumption.
Qed.

Lemma ecsData_unsupported_family esn :
  Family esn <> agdnet.AddrFamilyIPv4 ->
  Family esn <> agdnet.AddrFamilyIPv6 ->
  ecsData IPToAddr esn =
  (zeroPrefix, 0, Some (ErrUnsupportedFamily (Family esn))).
Proof.
  intros H4 H6. unfold ecsData.
  apply Z.eqb_neq in H4, H6. now rewrite H4, H6.
Qed.

Lemma ecsData_supported_family esn fam :
  Family esn = agdnet.AddrFamilyIPv4 \/ Family esn = agdnet.AddrFamilyIPv6 ->
  snd (ecsData IPToAddr esn) <> Some (ErrUnsupportedFamily fam).
Proof.
  intros Hfam. unfold ecsData.
  replace (negb (Family esn =? _) && negb (Family esn =? _)) with false
    by (destruct Hfam as [-> | ->]; reflexivity).
  destruct (IPToAddr _ _) as [a [err|]]; cbn [snd]; [discriminate|].
  destruct (negb (IsValid _)); cbn [snd]; [discriminate|].
  destruct (negb (Prefix_eqb _ _)); cbn [snd]; discriminate.
Qed.

(** C1. For a message whose first client-subnet option carries the
    address [a] with source netmask [n]: if some bit of [a] beyond its
    first [n] bits is set, [ecsData] and [ECSFromMsg] return an error
    and the zero prefix.  For a netmask within the address length the
    comparison of the masked prefix with the prefix itself succeeds
    exactly when no such bit is set; the error is then the one about
    bits beyond the prefix, and without such a bit (and with a
    supported family) the prefix and the scope are returned. *)
Theorem ECS_bits_beyond_prefix_rejected esn a msg pre post :
  IPToAddr (Address esn) (Family esn) = (a, None) ->
  wfAddr a ->
  IsEdns0 msg = Some (pre ++ OptSubnet esn :: post)%list ->
  forallb (fun o => negb (isSubnet o)) pre = true ->
  let n := SourceNetmask esn in
  let supported :=
    Family esn = agdnet.AddrFamilyIPv4 \/ Family esn = agdnet.AddrFamilyIPv6 in
  (bitsBeyondPrefix a n ->
   exists err,
     ecsData IPToAddr esn = (zeroPrefix, 0, Some err) /\
     ECSFromMsg IPToAddr msg = (zeroPrefix, 0, Some (mkBadECSError err)))
  /\
  (isZero a = false -> 0 <= n <= BitLen a ->
   (Prefix_eqb (Masked (PrefixFrom a n)) (PrefixFrom a n) = true <->
    ~ bitsBeyondPrefix a n)
   /\
   (supported -> bitsBeyondPrefix a n ->
    ecsData IPToAddr esn = (zeroPrefix, 0, Some (ErrBitsBeyondPrefix a n)))
   /\
   (supported -> ~ bitsBeyondPrefix a n ->
    ecsData IPToAddr esn = (PrefixFrom a n, SourceScope esn, None) /\
    ECSFromMsg IPToAddr msg = (PrefixFrom a n, SourceScope esn, None))).
Proof.
  intros Hip Hwf Hopt Hpre n supported. split.
  - intros Hbits.
    destruct (ecsData_bits_beyond esn a Hip Hwf Hbits) as [err Herr].
    exists err. split; [exact Herr|].
    unfold ECSFromMsg. rewrite Hopt. now apply ecsFromOptions_error.
  - intros Hz Hn. split; [now apply Masked_check_iff|]. split.
    + intros Hfam Hbits. now apply ecsData_bits_beyond_error.
    + intros Hfam Hbits.
      assert (Hd := ecsData_within_prefix esn a Hip Hwf Hfam Hz Hn Hbits).
      split; [exact Hd|].
      unfold ECSFromMsg. rewrite Hopt. now apply ecsFromOptions_ok.
Qed.

(** C6. An option whose family is neither 1 (IPv4) nor 2 (IPv6) makes
    [ecsData] fail with the unsupported-family error, and [ECSFromMsg]
    fail with it for a message whose first client-subnet option it is;
    an option of family 1 or 2 never yields that error. *)
Theorem ECS_unsupported_family_rejected esn :
  (Family esn <> 1 -> Family esn <> 2 ->
   ecsData IPToAddr esn =
   (zeroPrefix, 0, Some (ErrUnsupportedFamily (Family esn))) /\
   forall msg pre post,
     IsEdns0 msg = Some (pre ++ OptSubnet esn :: post)%list ->
     forallb (fun o => negb (isSubnet o)) pre = true ->
     ECSFromMsg IPToAddr msg =
     (zeroPrefix, 0, Some (mkBadECSError (ErrUnsupportedFamily (Family esn)))))
  /\
  (Family esn = 1 \/ Family esn = 2 ->
   forall fam, snd (ecsData IPToAddr esn) <> Some (ErrUnsupportedFamily fam)).
Proof.
  split.
  - intros H4 H6.
    assert (Hd := ecsData_unsupported_family esn H4 H6).
    split; [exact Hd|].
    intros msg pre post Hopt Hpre.
    unfold ECSFromMsg. rewrite Hopt. now apply ecsFromOptions_error.
  - intros Hfam fam. now apply ecsData_supported_family.
Qed.

End ECSFacts.

(** The first claim at the option [1.2.3.4/24] of the IPv4 family, whose
    last byte lies beyond the prefix. *)
Lemma ECS_bits_beyond_prefix_rejected_witness :
  exists err,
    ecsData agdnet.IPToAddr_bytes sample.esn_1_2_3_4_24 =
    (zeroPrefix, 0, Some err) /\
    ECSFromMsg agdnet.IPToAddr_bytes sample.msg_1_2_3_4_24 =
    (zeroPrefix, 0, Some (mkBadECSError err)).
Proof.
  refine (proj1 (ECS_bits_beyond_prefix_rejected unit agdnet.IPToAddr_bytes
                   sample.esn_1_2_3_4_24
                   (AddrFrom4 [x01; x02; x03; x04])
                   sample.msg_1_2_3_4_24 [OptOther 10 []] []
                   eq_refl _ eq_refl eq_refl) _).
  - unfold wfAddr. cbn. lia.
  - exists 29. split; [cbn; lia | reflexivity].
Defined.

End dnsmsg_ecs.

(** ** Cloning a message *)

Module dnsmsg_clone.

Import dns dnsmsg.

Lemma Copy_sections_not_nil m :
  is_nil (Answer (Copy m)) = false /\
  is_nil (Ns (Copy m)) = false /\
  is_nil (Extra (Copy m)) = false.
Proof. repeat split. Qed.

Lemma map_copyRR rrs : map copyRR rrs = rrs.
Proof. induction rrs as [|rr rrs IH]; cbn; [|rewrite IH]; reflexivity. Qed.

(** Each section of the clone is the section of the original, [nil] or
    not. *)
Lemma Clone_sections m :
  exists c,
    Clone (Some m) = Some c /\
    Answer c = Answer m /\ Ns c = Ns m /\ Extra c = Extra m.
Proof.
  eexists. split; [reflexivity|].
  destruct m as [h cp q [an|] [ns|] [ex|]];
    cbn; rewrite ?map_copyRR; repeat split.
Qed.

(** C2. For every message, each of the sections [Answer], [Ns] and
    [Extra] of its clone is [nil] exactly when that section of the
    message is, independently of the other two, and has as many records;
    so a section that is present but empty stays present and empty. *)
Theorem Clone_preserves_nilness m :
  exists c,
    Clone (Some m) = Some c /\
    (Answer c = None <-> Answer m = None) /\
    (Ns c = None <-> Ns m = None) /\
    (Extra c = None <-> Extra m = None) /\
    len (Answer c) = len (Answer m) /\
    len (Ns c) = len (Ns m) /\
    len (Extra c) = len (Extra m).
Proof.
  destruct (Clone_sections m) as [c [Hc [Ha [Hn He]]]].
  exists c. rewrite Ha, Hn, He. tauto.
Qed.

(** C10. The clone of the [nil] message is [nil], and [Clone] returns a
    message for every message that is not [nil]. *)
Theorem Clone_nil :
  Clone None = None /\ forall m, exists c, Clone (Some m) = Some c.
Proof.
  split; [reflexivity|]. intros m. eexists. reflexivity.
Qed.

End dnsmsg_clone.

(** ** Strict booleans of the environment *)

Module cmd_facts.

Import cmd.

Lemma UnmarshalText_other sb c :
  c <> x30 -> c <> x31 ->
  UnmarshalText sb [c] = (sb, Some (ErrInvalidValue [c])).
Proof.
  intros H0 H1. destruct c; try reflexivity; contradiction.
Qed.

(** C9. [UnmarshalText] accepts exactly the one-byte texts [0], giving
    [false], and [1], giving [true]; on every other text it returns an
    error and leaves the value as it was.  The texts [true], [false], the
    empty text and [01] are among the rejected ones. *)
Theorem strictBool_UnmarshalText (sb : strictBool) (b : list byte) :
  (b = [x30] -> UnmarshalText sb b = (false, None)) /\
  (b = [x31] -> UnmarshalText sb b = (true, None)) /\
  (b <> [x30] -> b <> [x31] ->
   UnmarshalText sb b = (sb, Some (ErrInvalidValue b))) /\
  (forall v, UnmarshalText sb b = (v, None) -> b = [x30] \/ b = [x31]) /\
  (let rejected t :=
     UnmarshalText sb (list_byte_of_string t)
     = (sb, Some (ErrInvalidValue (list_byte_of_string t))) in
   rejected "true" /\ rejected "false" /\ rejected "" /\ rejected "01").
Proof.
  assert (Hother : b <> [x30] -> b <> [x31] ->
                   UnmarshalText sb b = (sb, Some (ErrInvalidValue b))).
  { intros H0 H1. destruct b as [|c [|d rest]]; try reflexivity.
    apply UnmarshalText_other; congruence. }
  split; [intros ->; reflexivity|].
  split; [intros ->; reflexivity|].
  split; [exact Hother|].
  split; [|repeat split].
  intros v Hv.
  destruct (list_eq_dec Byte.byte_eq_dec b [x30]) as [|H0]; [now left|].
  destruct (list_eq_dec Byte.byte_eq_dec b [x31]) as [|H1]; [now right|].
  rewrite (Hother H0 H1) in Hv. discriminate.
Qed.

End cmd_facts.

(** ** Cutting and splitting strings *)

Module strings_facts.

Import strings.

Lemma length_app a b :
  String.length (a ++ b) = (String.length a + String.length b)%nat.
Proof. induction a as [|c a IH]; cbn; [|rewrite IH]; reflexivity. Qed.

Lemma append_inv_tail a b c : a ++ c = b ++ c -> a = b.
Proof.
  revert b. induction a as [|x a IH]; intros [|y b] H; cbn in H.
  - reflexivity.
  - apply (f_equal String.length) in H. cbn in H. rewrite length_app in H. lia.
  - apply (f_equal String.length) in H. cbn in H. rewrite length_app in H. lia.
  - injection H as -> H. f_equal. now apply IH.
Qed.

Lemma append_assoc a b c : (a ++ b) ++ c = a ++ (b ++ c).
Proof. induction a as [|x a IH]; cbn; [|rewrite IH]; reflexivity. Qed.

Lemma CutPrefix_Some s prefix rest :
  CutPrefix s prefix = Some rest <-> s = prefix ++ rest.
Proof.
  revert s. induction prefix as [|p prefix IH]; intros s; cbn.
  - split; [intros H; now injection H | intros ->; reflexivity].
  - destruct s as [|c s]; [split; discriminate|].
    destruct (Ascii.eqb p c) eqn:Hpc.
    + apply Ascii.eqb_eq in Hpc. subst c. rewrite IH. split.
      * intros ->. reflexivity.
      * intros H. now injection H.
    + split; [discriminate|]. intros H. injection H as H _. subst c.
      rewrite Ascii.eqb_refl in Hpc. discriminate.
Qed.

Lemma CutPrefix_sep1 c s :
  CutPrefix s (sep1 c) =
  match s with
  | String d s' => if Ascii.eqb c d then Some s' else None
  | EmptyString => None
  end.
Proof. destruct s as [|d s']; [reflexivity|]. cbn. now destruct (Ascii.eqb c d). Qed.

Lemma Cut_sep1_None c s : Cut s (sep1 c) = None <-> free c s = true.
Proof.
  induction s as [|d s IH].
  - cbn. tauto.
  - cbn [Cut]. rewrite CutPrefix_sep1. cbn [free].
    destruct (Ascii.eqb c d); cbn [negb andb].
    + split; discriminate.
    + destruct (Cut s (sep1 c)) as [[b a]|].
      * split; [discriminate|]. intros H. apply IH in H. discriminate.
      * split; [intros _; now apply IH | reflexivity].
Qed.

Lemma Cut_sep1_Some c s before after :
  Cut s (sep1 c) = Some (before, after) <->
  s = before ++ String c after /\ free c before = true.
Proof.
  revert before. induction s as [|d s IH]; intros before.
  - cbn. split; [discriminate|]. intros [H _]. destruct before; discriminate.
  - cbn [Cut]. rewrite CutPrefix_sep1.
    destruct (Ascii.eqb c d) eqn:Hcd.
    + apply Ascii.eqb_eq in Hcd. subst d. split.
      * intros H. injection H as <- <-. now split.
      * intros [H Hf]. destruct before as [|e before].
        -- cbn in H. now injection H as ->.
        -- cbn in H, Hf. injection H as H1 H2. subst e.
           rewrite Ascii.eqb_refl in Hf. discriminate.
    + destruct (Cut s (sep1 c)) as [[b a]|] eqn:Hcut.
      * split.
        -- intros H. injection H as <- <-.
           destruct (proj1 (IH b) eq_refl) as [-> Hf].
           split; [reflexivity|]. cbn. now rewrite Hcd.
        -- intros [H Hf]. destruct before as [|e before].
           ++ cbn in H. injection H as H1 _. subst d.
              rewrite Ascii.eqb_refl in Hcd. discriminate.
           ++ cbn in H, Hf. injection H as H1 H2. subst e.
              rewrite Hcd in Hf. cbn in Hf.
              assert (Hx : Some (b, a) = Some (before, after))
                by (apply IH; now split).
              now injection Hx as -> ->.
      * split; [discriminate|]. intros [H Hf].
        destruct before as [|e before].
        -- cbn in H. injection H as H1 _. subst d.
           rewrite Ascii.eqb_refl in Hcd. discriminate.
        -- cbn in H, Hf. injection H as H1 H2. subst e.
           rewrite Hcd in Hf. cbn in Hf.
           assert (Hx : None = Some (before, after)) by (apply IH; now split).
           discriminate.
Qed.

Lemma Cut_app c before after :
  free c before = true ->
  Cut (before ++ String c after) (sep1 c) = Some (before, after).
Proof. intros H. now apply Cut_sep1_Some. Qed.

Lemma free_app c a b : free c (a ++ b) = free c a && free c b.
Proof.
  induction a as [|d a IH]; [reflexivity|]. cbn. rewrite IH.
  now rewrite andb_assoc.
Qed.

Lemma splitLoop_cons c k a r :
  free c a = true ->
  splitLoop (S k) (a ++ String c r) (sep1 c) = a :: splitLoop k r (sep1 c).
Proof. intros H. cbn [splitLoop]. now rewrite Cut_app. Qed.

Lemma splitLoop_last c k s :
  free c s = true -> splitLoop k s (sep1 c) = [s].
Proof.
  intros H. destruct k; [reflexivity|]. cbn [splitLoop].
  now rewrite (proj2 (Cut_sep1_None c s) H).
Qed.

Lemma splitLoop_nonempty k s sep :
  exists x xs, splitLoop k s sep = x :: xs.
Proof. destruct k; cbn; [eauto|]. destruct (Cut s sep) as [[b a]|]; eauto. Qed.

Lemma Cut_shorter c s before after :
  Cut s (sep1 c) = Some (before, after) ->
  (String.length after < String.length s)%nat.
Proof.
  intros H. apply Cut_sep1_Some in H as [-> _].
  rewrite length_app. cbn. lia.
Qed.

(** Fuel beyond the length of the string changes nothing. *)
Lemma splitLoop_enough c k1 k2 s :
  (String.length s <= k1)%nat -> (String.length s <= k2)%nat ->
  splitLoop k1 s (sep1 c) = splitLoop k2 s (sep1 c).
Proof.
  revert k2 s. induction k1 as [|k1 IH]; intros k2 s H1 H2.
  - destruct s; [|cbn in H1; lia]. destruct k2; reflexivity.
  - destruct k2 as [|k2].
    + destruct s; [|cbn in H2; lia]. reflexivity.
    + cbn [splitLoop]. destruct (Cut s (sep1 c)) as [[b a]|] eqn:Hc;
        [|reflexivity].
      apply Cut_shorter in Hc. f_equal. apply IH; lia.
Qed.

Lemma Split_cons c a r :
  free c a = true ->
  Split (a ++ String c r) (sep1 c) = a :: Split r (sep1 c).
Proof.
  intros Ha. unfold Split, SplitN. cbn [Z.eqb Z.ltb Z.compare].
  rewrite (splitLoop_enough c _ (S (String.length (a ++ String c r)))) by lia.
  rewrite splitLoop_cons by assumption. f_equal.
  apply splitLoop_enough; [|lia]. rewrite length_app. cbn. lia.
Qed.

Lemma Split_last c s : free c s = true -> Split s (sep1 c) = [s].
Proof. intros H. unfold Split, SplitN. cbn [Z.eqb Z.ltb Z.compare]. now apply splitLoop_last. Qed.

Lemma Split_nonempty s sep : exists x xs, Split s sep = x :: xs.
Proof. unfold Split, SplitN. cbn [Z.eqb Z.ltb Z.compare]. apply splitLoop_nonempty. Qed.

End strings_facts.

(** ** Routing of the linked-IP proxy *)

Module websvc_facts.

Import strings strings_facts websvc.

Lemma shouldProxy_sound method urlPath :
  shouldProxy method urlPath = true ->
  proxiedRoute method (TrimPrefix urlPath "/").
Proof.
  unfold shouldProxy. set (q := TrimPrefix urlPath "/"). clearbody q.
  change (SplitN q "/" 5) with (splitLoop 4 q (sep1 "/")).
  cbn [splitLoop].
  destruct (Cut q (sep1 "/")) as [[a1 r1]|] eqn:C1; [|discriminate].
  destruct (Cut r1 (sep1 "/")) as [[a2 r2]|] eqn:C2; [|discriminate].
  apply Cut_sep1_Some in C1 as [E1 F1], C2 as [E2 F2].
  destruct (Cut r2 (sep1 "/")) as [[a3 r3]|] eqn:C3.
  - apply Cut_sep1_Some in C3 as [E3 F3].
    destruct (Cut r3 (sep1 "/")) as [[a4 r4]|] eqn:C4; [discriminate|].
    apply Cut_sep1_None in C4.
    cbn [List.length Nat.ltb Nat.leb orb].
    unfold shouldProxyGet, shouldProxyPost, index. cbn [nth List.length Nat.eqb].
    destruct (String.eqb method MethodGet) eqn:Hg.
    + apply String.eqb_eq in Hg. subst method.
      rewrite orb_false_l, andb_true_l. intros H.
      apply andb_true_iff in H as [H1 H2].
      apply String.eqb_eq in H1, H2. subst.
      apply (GetLinkIPStatus a2 a3); assumption.
    + destruct (String.eqb method MethodPost) eqn:Hp; [|discriminate].
      apply String.eqb_eq in Hp. subst method.
      rewrite andb_true_r, andb_false_r, orb_false_r. intros H.
      apply String.eqb_eq in H. subst.
      apply (PostDDNS a2 a3 r3); assumption.
  - apply Cut_sep1_None in C3.
    cbn [List.length Nat.ltb Nat.leb orb].
    unfold shouldProxyGet, shouldProxyPost, index. cbn [nth List.length Nat.eqb].
    destruct (String.eqb method MethodGet) eqn:Hg.
    + apply String.eqb_eq in Hg. subst method.
      rewrite orb_true_l, andb_true_r. intros H.
      apply String.eqb_eq in H. subst.
      apply (GetLinkIP a2 r2); assumption.
    + destruct (String.eqb method MethodPost) eqn:Hp; [|discriminate].
      apply String.eqb_eq in Hp. subst method.
      rewrite andb_false_r, andb_true_r, orb_false_l. intros H.
      apply String.eqb_eq in H. subst.
      apply (PostLinkIP a2 r2); assumption.
Qed.

Lemma shouldProxy_complete method urlPath :
  proxiedRoute method (TrimPrefix urlPath "/") ->
  shouldProxy method urlPath = true.
Proof.
  unfold shouldProxy. set (q := TrimPrefix urlPath "/"). clearbody q.
  change (SplitN q "/" 5) with (splitLoop 4 q (sep1 "/")).
  intros H. destruct H as [id enc Hi He|id enc Hi He|id enc dom Hi He Hd|id enc Hi He];
    unfold segment in *.
  - change ("linkip/" ++ id ++ "/" ++ enc)
      with ("linkip" ++ String "/" (id ++ String "/" enc)).
    rewrite !splitLoop_cons, splitLoop_last by (assumption || reflexivity).
    reflexivity.
  - change ("linkip/" ++ id ++ "/" ++ enc ++ "/status")
      with ("linkip" ++ String "/" (id ++ String "/" (enc ++ String "/" "status"))).
    rewrite !splitLoop_cons, splitLoop_last by (assumption || reflexivity).
    reflexivity.
  - change ("ddns/" ++ id ++ "/" ++ enc ++ "/" ++ dom)
      with ("ddns" ++ String "/" (id ++ String "/" (enc ++ String "/" dom))).
    rewrite !splitLoop_cons, splitLoop_last by (assumption || reflexivity).
    reflexivity.
  - change ("linkip/" ++ id ++ "/" ++ enc)
      with ("linkip" ++ String "/" (id ++ String "/" enc)).
    rewrite !splitLoop_cons, splitLoop_last by (assumption || reflexivity).
    reflexivity.
Qed.

(** C8, as amended. A request is handed to the reverse proxy exactly when
    it is one of the four documented routes: [GET] on
    [/linkip/{id}/{enc}] or [/linkip/{id}/{enc}/status], [POST] on
    [/ddns/{id}/{enc}/{domain}] or [/linkip/{id}/{enc}].  [ServeHTTP]
    forwards such a request (or answers 500 when the remote address has
    no host part), and answers any other request, also one under
    [/linkip/] or [/ddns/], with 404 unless it asks for [/robots.txt]. *)
Theorem shouldProxy_documented_routes
  (SplitHost : string -> option string) (method urlPath rAddr : string) :
  (shouldProxy method urlPath = true <->
   proxiedRoute method (TrimPrefix urlPath "/")) /\
  (proxiedRoute method (TrimPrefix urlPath "/") ->
   ServeHTTP SplitHost method urlPath rAddr =
   match SplitHost rAddr with
   | Some ip => Proxied ip
   | None => InternalServerError
   end) /\
  (~ proxiedRoute method (TrimPrefix urlPath "/") ->
   urlPath <> "/robots.txt" ->
   ServeHTTP SplitHost method urlPath rAddr = NotFound).
Proof.
  assert (Hiff : shouldProxy method urlPath = true <->
                 proxiedRoute method (TrimPrefix urlPath "/"))
    by (split; [apply shouldProxy_sound | apply shouldProxy_complete]).
  split; [exact Hiff|]. unfold ServeHTTP. split.
  - intros H. apply Hiff in H. rewrite H.
    destruct (SplitHost rAddr); reflexivity.
  - intros H Hrobots.
    destruct (shouldProxy method urlPath) eqn:Hs.
    + exfalso. apply H, Hiff. reflexivity.
    + apply String.eqb_neq in Hrobots. now rewrite Hrobots.
Qed.

(** Requests under [/linkip/] and [/ddns/] that are not proxied: another
    method, a [GET] on a [/ddns/] path, and a path with too few or too
    many segments. *)
Lemma shouldProxy_prefix_not_enough :
  shouldProxy "PUT" "/linkip/dev/enc" = false /\
  shouldProxy "GET" "/ddns/dev/enc/example.org" = false /\
  shouldProxy "GET" "/linkip/dev" = false /\
  shouldProxy "POST" "/ddns/dev/enc/example.org/more" = false /\
  ServeHTTP (fun rAddr => Some rAddr) "GET" "/linkip/dev" "192.0.2.1"
  = NotFound.
Proof. repeat split. Qed.

End websvc_facts.

(** ** The device-id grammar *)

Module agd_facts.

Import strings agd.

Lemma firstBadRune_None s : firstBadRune s = None <-> allLabelRunes s = true.
Proof.
  induction s as [|c s IH]; cbn; [tauto|].
  destruct (isLabelRune c); cbn; [exact IH | split; discriminate].
Qed.

Lemma firstBadRune_Some s r :
  firstBadRune s = Some r ->
  exists before after,
    s = before ++ String r after /\
    allLabelRunes before = true /\ isLabelRune r = false.
Proof.
  induction s as [|c s IH]; cbn; [discriminate|].
  destruct (isLabelRune c) eqn:Hc.
  - intros H. destruct (IH H) as [b [a [-> [Hb Hr]]]].
    exists (String c b), a. cbn. now rewrite Hc.
  - intros H. injection H as ->. now exists "", s.
Qed.

Lemma NewDeviceID_valid s :
  NewDeviceID s = (s, None) <-> validDeviceID s = true.
Proof.
  unfold NewDeviceID, validDeviceID, MaxDeviceIDLen.
  destruct (8 <? String.length s)%nat eqn:Hl.
  - apply Nat.ltb_lt in Hl. split; [discriminate|]. intros H.
    apply andb_true_iff in H as [H _]. apply Nat.leb_le in H. lia.
  - apply Nat.ltb_ge in Hl.
    replace (String.length s <=? 8)%nat with true
      by (symmetry; now apply Nat.leb_le).
    cbn [andb]. rewrite <- firstBadRune_None.
    destruct (firstBadRune s); split; congruence.
Qed.

Lemma NewDeviceID_too_long s :
  (9 <= String.length s)%nat ->
  NewDeviceID s =
  ("", Some (ErrBadDeviceID s (ErrTooLong (String.length s) 8))).
Proof.
  intros H. unfold NewDeviceID, MaxDeviceIDLen.
  now replace (8 <? String.length s)%nat with true
    by (symmetry; apply Nat.ltb_lt; lia).
Qed.

Lemma NewDeviceID_bad_rune s :
  (String.length s <= 8)%nat -> allLabelRunes s = false ->
  exists r before after,
    NewDeviceID s = ("", Some (ErrBadDeviceID s (ErrBadLabelRune r))) /\
    s = before ++ String r after /\
    allLabelRunes before = true /\ isLabelRune r = false.
Proof.
  intros Hl Hbad. unfold NewDeviceID, MaxDeviceIDLen.
  replace (8 <? String.length s)%nat with false
    by (symmetry; apply Nat.ltb_ge; lia).
  destruct (firstBadRune s) as [r|] eqn:Hf.
  - destruct (firstBadRune_Some s r Hf) as [b [a H]]. now exists r, b, a.
  - apply firstBadRune_None in Hf. congruence.
Qed.

Lemma NewDeviceID_invalid s :
  validDeviceID s = false ->
  exists err, NewDeviceID s = ("", Some (ErrBadDeviceID s err)).
Proof.
  intros H. unfold NewDeviceID, MaxDeviceIDLen.
  destruct (8 <? String.length s)%nat eqn:Hl; [eexists; reflexivity|].
  destruct (firstBadRune s) as [r|] eqn:Hf; [eexists; reflexivity|].
  apply firstBadRune_None in Hf. apply Nat.ltb_ge in Hl.
  unfold validDeviceID in H. rewrite Hf, andb_true_r in H.
  apply Nat.leb_gt in H. lia.
Qed.

Lemma allLabelRunes_free c s :
  isLabelRune c = false -> allLabelRunes s = true -> free c s = true.
Proof.
  intros Hc. induction s as [|d s IH]; cbn; [reflexivity|].
  intros H. apply andb_true_iff in H as [Hd Hs].
  rewrite (IH Hs), andb_true_r. apply negb_true_iff, Ascii.eqb_neq.
  intros ->. congruence.
Qed.

(** C3. A candidate of at most 8 bytes whose every rune is an ASCII
    letter, a digit or [-] is accepted as it is, so one of exactly 8
    bytes is.  A candidate of nine or more bytes is rejected with
    [bad device id "<s>": too long: got <N> bytes, max 8], [<N>] being
    its length in bytes.  A candidate with any other rune is rejected
    with a bad-device-id error, which for a candidate of at most 8 bytes
    names the first such rune:
    [bad device id "<s>": bad domain name label rune '<r>']. *)
Theorem NewDeviceID_grammar (s : string) :
  ((String.length s <= 8)%nat -> allLabelRunes s = true ->
   NewDeviceID s = (s, None)) /\
  ((9 <= String.length s)%nat ->
   exists e,
     NewDeviceID s = ("", Some e) /\
     e = ErrBadDeviceID s (ErrTooLong (String.length s) 8) /\
     deviceIDErrorText e =
     "bad device id " ++ quoted s ++ ": too long: got "
       ++ Itoa (String.length s) ++ " bytes, max 8") /\
  (allLabelRunes s = false ->
   exists err,
     NewDeviceID s = ("", Some (ErrBadDeviceID s err)) /\
     ((String.length s <= 8)%nat ->
      exists r before after,
        err = ErrBadLabelRune r /\
        s = before ++ String r after /\
        allLabelRunes before = true /\ isLabelRune r = false /\
        deviceIDErrorText (ErrBadDeviceID s err) =
        "bad device id " ++ quoted s ++ ": bad domain name label rune "
          ++ quotedRune r)) /\
  (NewDeviceID "abcdefgh" = ("abcdefgh", None) /\
   snd (NewDeviceID "abcdefghi") =
   Some (ErrBadDeviceID "abcdefghi" (ErrTooLong 9 8)) /\
   idErrorText (ErrTooLong 9 8) = "too long: got 9 bytes, max 8").
Proof.
  split; [|split; [|split]].
  - intros Hl Hr. apply NewDeviceID_valid. unfold validDeviceID.
    rewrite Hr, andb_true_r. now apply Nat.leb_le.
  - intros Hl. eexists. split; [now apply NewDeviceID_too_long|].
    split; reflexivity.
  - intros Hbad.
    destruct (Nat.le_gt_cases (String.length s) 8) as [Hl|Hl].
    + destruct (NewDeviceID_bad_rune s Hl Hbad) as [r [b [a [H1 [H2 [H3 H4]]]]]].
      exists (ErrBadLabelRune r). split; [exact H1|]. intros _.
      exists r, b, a. repeat split; assumption.
    + eexists. split; [apply NewDeviceID_too_long; lia|]. lia.
  - repeat split.
Qed.

End agd_facts.

(** ** The device id of a request *)

Module dnssvc_facts.

Import strings strings_facts agd agd_facts dnssvc.

Lemma matchWildcard_Some cliSrvName wildcard label :
  matchWildcard cliSrvName wildcard = Some label <->
  exists suffix,
    wildcard = "*." ++ suffix /\ oneLabelBefore cliSrvName suffix label.
Proof.
  unfold matchWildcard, oneLabelBefore.
  change (Cut cliSrvName ".") with (Cut cliSrvName (sep1 ".")).
  destruct (CutPrefix wildcard "*.") as [suffix|] eqn:Hw.
  - apply CutPrefix_Some in Hw. subst wildcard.
    destruct (Cut cliSrvName (sep1 ".")) as [[l rest]|] eqn:Hc.
    + apply Cut_sep1_Some in Hc as [-> Hfree].
      destruct (String.eqb rest suffix) eqn:Hr; cbn [andb].
      * apply String.eqb_eq in Hr. subst rest.
        destruct (String.eqb l "") eqn:Hl; cbn [negb].
        -- apply String.eqb_eq in Hl. subst l. split; [discriminate|].
           intros [sfx [Hs [H1 [H2 H3]]]]. injection Hs as <-.
           exfalso. apply H2.
           apply (append_inv_tail _ _ (String "." suffix)). symmetry. exact H1.
        -- apply String.eqb_neq in Hl. split.
           ++ intros H. injection H as <-. exists suffix. repeat split; auto.
           ++ intros [sfx [Hs [H1 [H2 H3]]]]. injection Hs as <-.
              f_equal. apply (append_inv_tail _ _ (String "." suffix)). exact H1.
      * apply String.eqb_neq in Hr. split; [discriminate|].
        intros [sfx [Hs [H1 [H2 H3]]]]. injection Hs as <-.
        exfalso. apply Hr.
        assert (Hx : Cut (l ++ String "." rest) (sep1 ".") = Some (label, suffix))
          by (apply Cut_sep1_Some; split; assumption).
        rewrite Cut_app in Hx by assumption. now injection Hx.
    + apply Cut_sep1_None in Hc. split; [discriminate|].
      intros [sfx [Hs [H1 [H2 H3]]]]. subst cliSrvName.
      rewrite free_app in Hc. cbn in Hc. rewrite andb_false_r in Hc. discriminate.
  - split; [discriminate|]. intros [sfx [Hs _]]. subst wildcard.
    assert (Hx : CutPrefix ("*." ++ sfx) "*." = Some sfx) by (now apply CutPrefix_Some).
    congruence.
Qed.

(** Every wildcard that matches yields the first label of the name. *)
Lemma oneLabelBefore_unique cliSrvName suffix1 label1 suffix2 label2 :
  oneLabelBefore cliSrvName suffix1 label1 ->
  oneLabelBefore cliSrvName suffix2 label2 ->
  label1 = label2 /\ suffix1 = suffix2.
Proof.
  intros [H1 [_ F1]] [H2 [_ F2]].
  assert (Hx : Cut cliSrvName (sep1 ".") = Some (label1, suffix1))
    by (apply Cut_sep1_Some; now split).
  assert (Hy : Cut cliSrvName (sep1 ".") = Some (label2, suffix2))
    by (apply Cut_sep1_Some; now split).
  rewrite Hx in Hy. injection Hy as -> ->. now split.
Qed.

Lemma matchDomain_Some cliSrvName wildcards label :
  matchDomain cliSrvName wildcards = Some label <->
  exists suffix,
    In ("*." ++ suffix) wildcards /\ oneLabelBefore cliSrvName suffix label.
Proof.
  induction wildcards as [|w ws IH]; cbn [matchDomain].
  - split; [discriminate|]. intros [sfx [[] _]].
  - destruct (matchWildcard cliSrvName w) as [l|] eqn:Hm.
    + apply matchWildcard_Some in Hm as [sfx [-> Hone]]. split.
      * intros H. injection H as <-. exists sfx. split; [now left | exact Hone].
      * intros [sfx' [_ Hone']].
        destruct (oneLabelBefore_unique _ _ _ _ _ Hone Hone') as [-> _].
        reflexivity.
    + rewrite IH. split.
      * intros [sfx [Hin Hone]]. exists sfx. split; [now right | exact Hone].
      * intros [sfx [[Hw | Hin] Hone]].
        -- assert (Hx : matchWildcard cliSrvName w = Some label)
             by (apply matchWildcard_Some; now exists sfx).
           congruence.
        -- now exists sfx.
Qed.

Lemma matchDomain_None cliSrvName wildcards :
  matchDomain cliSrvName wildcards = None <->
  forall suffix label,
    In ("*." ++ suffix) wildcards -> ~ oneLabelBefore cliSrvName suffix label.
Proof.
  split.
  - intros H sfx l Hin Hone.
    assert (Hx : matchDomain cliSrvName wildcards = Some l)
      by (apply matchDomain_Some; now exists sfx).
    congruence.
  - intros H. destruct (matchDomain cliSrvName wildcards) as [l|] eqn:Hm;
      [|reflexivity].
    apply matchDomain_Some in Hm as [sfx [Hin Hone]].
    exfalso. exact (H sfx l Hin Hone).
Qed.

(** The bare suffix of a wildcard does not match that wildcard. *)
Lemma bare_suffix_no_label suffix label : ~ oneLabelBefore suffix suffix label.
Proof.
  intros [H _]. apply (f_equal String.length) in H.
  rewrite length_app in H. cbn in H. lia.
Qed.

(** A name with more than one label before the suffix does not match. *)
Lemma deeper_no_label sub more suffix label :
  ~ oneLabelBefore (sub ++ "." ++ more ++ "." ++ suffix) suffix label.
Proof.
  intros [H [_ Hfree]].
  replace (sub ++ "." ++ more ++ "." ++ suffix)
    with ((sub ++ "." ++ more) ++ "." ++ suffix) in H
    by (rewrite !append_assoc; reflexivity).
  apply append_inv_tail in H. subst label.
  rewrite free_app in Hfree. cbn in Hfree. rewrite andb_false_r in Hfree.
  discriminate.
Qed.

Lemma oneLabelBefore_nonempty cliSrvName suffix label :
  oneLabelBefore cliSrvName suffix label -> cliSrvName <> "".
Proof. intros [-> [H _]]. destruct label; [contradiction|discriminate]. Qed.

Lemma deviceIDFromCliSrvName_match cliSrvName wildcards suffix label :
  In ("*." ++ suffix) wildcards ->
  oneLabelBefore cliSrvName suffix label ->
  deviceIDFromCliSrvName cliSrvName wildcards = NewDeviceID label.
Proof.
  intros Hin Hone. unfold deviceIDFromCliSrvName.
  apply oneLabelBefore_nonempty in Hone as Hne.
  apply String.eqb_neq in Hne. rewrite Hne.
  assert (Hm : matchDomain cliSrvName wildcards = Some label)
    by (apply matchDomain_Some; now exists suffix).
  now rewrite Hm.
Qed.

Lemma deviceIDFromCliSrvName_no_match cliSrvName wildcards :
  (forall suffix label,
      In ("*." ++ suffix) wildcards -> ~ oneLabelBefore cliSrvName suffix label) ->
  deviceIDFromCliSrvName cliSrvName wildcards = ("", None).
Proof.
  intros H. unfold deviceIDFromCliSrvName.
  destruct (String.eqb cliSrvName ""); [reflexivity|].
  apply matchDomain_None in H. now rewrite H.
Qed.

(** Over DoT and DoQ only the server name is looked at. *)
Lemma deviceIDFromContext_tls ci proto wildcards :
  proto = ProtoDoT \/ proto = ProtoDoQ ->
  deviceIDFromContext ci proto wildcards =
  match deviceIDFromCliSrvName (TLSServerName ci) wildcards with
  | (_, Some err) => ("", Some (ErrTLSServerNameCheck err))
  | (id, None) => (id, None)
  end.
Proof. intros [-> | ->]; reflexivity. Qed.

Lemma dropTrailing_snoc c s : dropTrailing c (s ++ String c "") = s.
Proof.
  induction s as [|d s IH]; cbn.
  - now rewrite Ascii.eqb_refl.
  - rewrite IH. destruct s; reflexivity.
Qed.

Lemma dropTrailing_free c s : free c s = true -> dropTrailing c s = s.
Proof.
  induction s as [|d s IH]; [reflexivity|]. cbn [free]. intros H.
  apply andb_true_iff in H as [Hd Hs]. cbn [dropTrailing].
  destruct s as [|e s].
  - apply negb_true_iff in Hd. now rewrite Hd.
  - now rewrite (IH Hs).
Qed.

Lemma dropTrailing_app c p t :
  t <> "" -> dropTrailing c (p ++ t) = p ++ dropTrailing c t.
Proof.
  intros Ht. induction p as [|d p IH]; [reflexivity|].
  cbn [append dropTrailing]. rewrite IH.
  destruct (p ++ t) eqn:Hpt; [|reflexivity].
  destruct p; [cbn in Hpt; contradiction | discriminate].
Qed.

Lemma deviceIDFromURL_segment id :
  free "/" id = true ->
  Split ("/dns-query/" ++ id) "/" = [""; "dns-query"; id].
Proof.
  intros H.
  change (Split ("/dns-query/" ++ id) "/")
    with (Split ("" ++ String "/" ("dns-query" ++ String "/" id)) (sep1 "/")).
  now rewrite !Split_cons, Split_last.
Qed.

Lemma deviceIDFromURL_id id :
  validDeviceID id = true ->
  deviceIDFromURL ("/dns-query/" ++ id) = (id, None) /\
  deviceIDFromURL ("/dns-query/" ++ id ++ "/") = (id, None).
Proof.
  intros Hv. assert (Hnew := proj2 (NewDeviceID_valid id) Hv).
  assert (Hfree : free "/" id = true).
  { apply allLabelRunes_free; [reflexivity|].
    unfold validDeviceID in Hv. now apply andb_true_iff in Hv as [_ Hv]. }
  split.
  - destruct id as [|c id]; [reflexivity|].
    unfold deviceIDFromURL.
    rewrite (dropTrailing_app "/" "/dns-query/") by discriminate.
    rewrite dropTrailing_free, deviceIDFromURL_segment by assumption.
    cbn [String.eqb Ascii.eqb Bool.eqb negb]. now rewrite Hnew.
  - unfold deviceIDFromURL.
    replace ("/dns-query/" ++ id ++ "/") with (("/dns-query/" ++ id) ++ String "/" "")
      by (now rewrite append_assoc).
    rewrite dropTrailing_snoc, deviceIDFromURL_segment by assumption.
    cbn [String.eqb Ascii.eqb Bool.eqb negb]. now rewrite Hnew.
Qed.

Lemma deviceIDFromURL_bad_id id :
  free "/" id = true -> id <> "" -> validDeviceID id = false ->
  exists err,
    deviceIDFromURL ("/dns-query/" ++ id) =
    ("", Some (ErrURLDeviceID (ErrBadDeviceID id err))).
Proof.
  intros Hfree Hne Hv. destruct (NewDeviceID_invalid id Hv) as [err Herr].
  exists err. unfold deviceIDFromURL.
  rewrite (dropTrailing_app "/" "/dns-query/") by assumption.
  rewrite dropTrailing_free, deviceIDFromURL_segment by assumption.
  cbn [String.eqb Ascii.eqb Bool.eqb negb]. now rewrite Herr.
Qed.

Lemma deviceIDFromURL_extra id more :
  free "/" id = true -> more <> "" ->
  deviceIDFromURL ("/dns-query/" ++ id ++ "/" ++ more) =
  ("", Some (ErrExtraParts ("/dns-query/" ++ id ++ "/" ++ more))).
Proof.
  intros Hfree Hne. unfold deviceIDFromURL.
  replace ("/dns-query/" ++ id ++ "/" ++ more)
    with (("/dns-query/" ++ id ++ "/") ++ more) at 1
    by (now rewrite !append_assoc).
  rewrite dropTrailing_app by assumption.
  replace (("/dns-query/" ++ id ++ "/") ++ dropTrailing "/" more)
    with ("" ++ String "/" ("dns-query" ++ String "/" (id ++ String "/" (dropTrailing "/" more))))
    by (cbn; now rewrite !append_assoc).
  change "/" with (sep1 "/") at 3.
  rewrite !Split_cons by (assumption || reflexivity).
  destruct (Split_nonempty (dropTrailing "/" more) (sep1 "/")) as [x [xs ->]].
  reflexivity.
Qed.

(** C5. The paths [/dns-query] and [/dns-query/] give the empty device
    id and no error; [/dns-query/<id>] and [/dns-query/<id>/] give
    [<id>], for every valid device id; a further segment after the id is
    the error [bad path "<path>": extra parts], as for
    [/dns-query/cli/foo]; a segment that is not a valid device id is a
    bad-device-id error, for [/dns-query/!!!] the error
    [bad device id "!!!": bad domain name label rune '!'].  Over DoH,
    for a request without a TLS server name, this is the result of the
    extraction, the error marked as coming from the URL check. *)
Theorem deviceIDFromURL_paths :
  deviceIDFromURL "/dns-query" = ("", None) /\
  deviceIDFromURL "/dns-query/" = ("", None) /\
  (forall id,
      validDeviceID id = true ->
      deviceIDFromURL ("/dns-query/" ++ id) = (id, None) /\
      deviceIDFromURL ("/dns-query/" ++ id ++ "/") = (id, None)) /\
  (forall id more,
      free "/" id = true -> free "/" more = true -> more <> "" ->
      deviceIDFromURL ("/dns-query/" ++ id ++ "/" ++ more) =
      ("", Some (ErrExtraParts ("/dns-query/" ++ id ++ "/" ++ more)))) /\
  (forall id,
      free "/" id = true -> id <> "" -> validDeviceID id = false ->
      exists err,
        deviceIDFromURL ("/dns-query/" ++ id) =
        ("", Some (ErrURLDeviceID (ErrBadDeviceID id err)))) /\
  (exists e,
      deviceIDFromURL "/dns-query/cli/foo" = ("", Some e) /\
      urlErrorText e =
      "bad path " ++ quoted "/dns-query/cli/foo" ++ ": extra parts") /\
  (exists e,
      deviceIDFromURL "/dns-query/!!!" = ("", Some e) /\
      urlErrorText e =
      "bad device id " ++ quoted "!!!" ++ ": bad domain name label rune '!'") /\
  (forall tlsServerName wildcards path,
      tlsServerName = "" ->
      deviceIDFromContext
        {| TLSServerName := tlsServerName; URLPath := Some path |}
        ProtoDoH wildcards =
      match deviceIDFromURL path with
      | (_, Some err) => ("", Some (ErrHTTPURLCheck err))
      | (id, None) => (id, None)
      end).
Proof.
  split; [reflexivity|]. split; [reflexivity|].
  split; [exact deviceIDFromURL_id|].
  split; [intros id more Hi _ Hm; now apply deviceIDFromURL_extra|].
  split; [exact deviceIDFromURL_bad_id|].
  split; [eexists; split; reflexivity|].
  split; [eexists; split; reflexivity|].
  intros sn ws path ->. unfold deviceIDFromContext. cbn [URLPath TLSServerName].
  destruct (deviceIDFromURL path) as [id [err|]]; [reflexivity|].
  destruct (String.eqb id "") eqn:Hid; [|reflexivity].
  apply String.eqb_eq in Hid. subst id. reflexivity.
Qed.

(** C4, as amended. Over DoT and DoQ, with the wildcard [*.<suffix>]
    among the configured ones:
    - if the server name is [<label>.<suffix>] with exactly one label
      before the suffix, the label is the extracted device id when it is
      a valid device id, and a bad-device-id error is raised when it is
      not;
    - if the server name is the bare suffix, no device id is extracted
      and no error is raised, unless another wildcard matches the name
      with exactly one label;
    - if the server name has more than one label before the suffix, no
      device id is extracted and no error is raised unless another
      wildcard matches the name with exactly one label, in which case
      the label before the suffix of that wildcard is the device id
      (when it is a valid one). *)
Theorem deviceID_from_server_name ci proto wildcards suffix :
  proto = ProtoDoT \/ proto = ProtoDoQ ->
  In ("*." ++ suffix) wildcards ->
  let name := TLSServerName ci in
  let result := deviceIDFromContext ci proto wildcards in
  let noOtherMatch :=
    forall suffix' label',
      In ("*." ++ suffix') wildcards -> suffix' <> suffix ->
      ~ oneLabelBefore name suffix' label' in
  (forall label,
      oneLabelBefore name suffix label ->
      (validDeviceID label = true -> result = (label, None)) /\
      (validDeviceID label = false ->
       exists err,
         result =
         ("", Some (ErrTLSServerNameCheck (ErrBadDeviceID label err))))) /\
  (name = suffix -> noOtherMatch -> result = ("", None)) /\
  (forall sub more,
      name = sub ++ "." ++ more ++ "." ++ suffix ->
      (noOtherMatch -> result = ("", None)) /\
      (forall suffix' label,
          In ("*." ++ suffix') wildcards ->
          oneLabelBefore name suffix' label ->
          validDeviceID label = true ->
          result = (label, None))).
Proof.
  intros Hproto Hin name result noOtherMatch.
  assert (Hres : result =
                 match deviceIDFromCliSrvName name wildcards with
                 | (_, Some err) => ("", Some (ErrTLSServerNameCheck err))
                 | (id, None) => (id, None)
                 end)
    by (now apply deviceIDFromContext_tls).
  assert (Hmatch : forall sfx label,
             In ("*." ++ sfx) wildcards -> oneLabelBefore name sfx label ->
             (validDeviceID label = true -> result = (label, None)) /\
             (validDeviceID label = false ->
              exists err,
                result =
                ("", Some (ErrTLSServerNameCheck (ErrBadDeviceID label err))))).
  { intros sfx label Hi Hone.
    rewrite Hres, (deviceIDFromCliSrvName_match name wildcards sfx label Hi Hone).
    split; intros Hv.
    - apply NewDeviceID_valid in Hv. now rewrite Hv.
    - destruct (NewDeviceID_invalid label Hv) as [err ->]. now exists err. }
  assert (Hnone : (forall sfx label,
                      In ("*." ++ sfx) wildcards ->
                      ~ oneLabelBefore name sfx label) ->
                  result = ("", None)).
  { intros H. now rewrite Hres, deviceIDFromCliSrvName_no_match. }
  split; [|split].
  - intros label Hone. now apply (Hmatch suffix).
  - intros Hname Hother. apply Hnone. intros sfx label Hi Hone.
    destruct (string_dec sfx suffix) as [->|Hne].
    + rewrite Hname in Hone. exact (bare_suffix_no_label _ _ Hone).
    + exact (Hother sfx label Hi Hne Hone).
  - intros sub more Hname. split.
    + intros Hother. apply Hnone. intros sfx label Hi Hone.
      destruct (string_dec sfx suffix) as [->|Hne].
      * rewrite Hname in Hone. exact (deeper_no_label _ _ _ _ Hone).
      * exact (Hother sfx label Hi Hne Hone).
    + intros sfx label Hi Hone Hv. now apply (Hmatch sfx label Hi Hone).
Qed.

(** The server name [dev.sub.dns.example.com] of the test
    [tls_device_id_subdomain_wildcard]: two labels before
    [dns.example.com], one before [sub.dns.example.com]. *)
Lemma deviceID_from_server_name_witness :
  deviceIDFromContext
    {| TLSServerName := "dev.sub.dns.example.com"; URLPath := None |}
    ProtoDoT ["*.dns.example.com"; "*.sub.dns.example.com"]
  = ("dev", None).
Proof.
  refine (proj2 (proj2 (proj2 (deviceID_from_server_name
            {| TLSServerName := "dev.sub.dns.example.com"; URLPath := None |}
            ProtoDoT ["*.dns.example.com"; "*.sub.dns.example.com"]
            "dns.example.com" (or_introl eq_refl) (or_introl eq_refl)))
            "dev" "sub" eq_refl) "sub.dns.example.com" "dev" _ _ eq_refl).
  - right. left. reflexivity.
  - repeat split. discriminate.
Defined.

(** A label before the suffix that is not a valid device id is an error,
    not a device id, as in the test [tls_bad_device_id]; and the bare
    suffix of one wildcard can match another wildcard with one label. *)
Lemma server_name_label_not_always_device_id :
  errMsg (deviceIDFromContext
            {| TLSServerName := "!!!.dns.example.com"; URLPath := None |}
            ProtoDoT ["*.dns.example.com"])
  = ("", "tls server name device id check: bad device id "
           ++ quoted "!!!" ++ ": bad domain name label rune '!'") /\
  deviceIDFromContext
    {| TLSServerName := "dns.example.com"; URLPath := None |}
    ProtoDoT ["*.dns.example.com"; "*.example.com"]
  = ("dns", None).
Proof. split; reflexivity. Qed.

End dnssvc_facts.

(** ** The JSON form of a message *)

Module dnsserver_facts.

Import strings dnsserver.

(** C7. Each record of the JSON form keeps the name, type, class and TTL
    of its header and gives its data as text: the literal IP address for
    an A or AAAA record, the target for a CNAME record, the strings in
    double quotes separated by spaces for a TXT record, and priority,
    target and [key="value"] parameters ([alpn], [ech], [ipv4hint],
    [ipv6hint]) for an HTTPS or SVCB record.  On the message of
    [TestDNSMsgToJSONMsg] the result has the header flags, the question,
    the answers and the extra record that the test requires. *)
Theorem DNSMsgToJSONMsg_rdata_text :
  (forall hdr ip,
      Data (rrToJSON (dns.A hdr ip)) = IPString ip /\
      Data (rrToJSON (dns.AAAA hdr ip)) = IPString ip) /\
  (forall a b c d : byte,
      IPString [a; b; c; d] =
      Itoa (N.to_nat (byteN a)) ++ "." ++ Itoa (N.to_nat (byteN b)) ++ "."
        ++ Itoa (N.to_nat (byteN c)) ++ "." ++ Itoa (N.to_nat (byteN d))) /\
  (forall hdr target, Data (rrToJSON (dns.CNAME hdr target)) = target) /\
  (forall hdr txt,
      Data (rrToJSON (dns.TXT hdr txt)) = Join (map quoted txt) " ") /\
  (forall hdr s1 s2,
      Data (rrToJSON (dns.TXT hdr [s1; s2])) = quoted s1 ++ " " ++ quoted s2) /\
  (forall hdr priority target alpn ech hint4 hint6,
      Data (rrToJSON (dns.SVCB hdr priority target
                        [dns.SVCBAlpn alpn; dns.SVCBECHConfig ech;
                         dns.SVCBIPv4Hint hint4; dns.SVCBIPv6Hint hint6])) =
      Itoa (Z.to_nat priority) ++ " " ++ target
        ++ " alpn=" ++ quoted (Join alpn ",")
        ++ " ech=" ++ quoted (toBase64 ech)
        ++ " ipv4hint=" ++ quoted (Join (map IPString hint4) ",")
        ++ " ipv6hint=" ++ quoted (Join (map IPString hint6) ",")) /\
  (forall rr,
      Name (rrToJSON rr) = dns.Name (dns.Header rr) /\
      Type_ (rrToJSON rr) = dns.Rrtype (dns.Header rr) /\
      Class (rrToJSON rr) = dns.Class (dns.Header rr) /\
      TTL (rrToJSON rr) = dns.Ttl (dns.Header rr)) /\
  (forall id,
      let jsonMsg := DNSMsgToJSONMsg (testMsg id) in
      Status jsonMsg = dns.RcodeSuccess /\
      RecursionDesired jsonMsg = true /\
      AuthenticatedData jsonMsg = true /\
      RecursionAvailable jsonMsg = true /\
      CheckingDisabled jsonMsg = true /\
      Truncated jsonMsg = false /\
      Question jsonMsg = [{| qName := "example.org"; qType := dns.TypeA |}] /\
      Answer jsonMsg = wantAnswer /\
      Extra jsonMsg = wantExtra).
Proof.
  split; [intros; split; reflexivity|].
  split; [reflexivity|].
  split; [reflexivity|].
  split; [reflexivity|].
  split; [reflexivity|].
  split.
  { intros hdr priority target alpn ech hint4 hint6. reflexivity. }
  split; [intros rr; repeat split|].
  intros id. cbv zeta. repeat split.
Qed.

End dnsserver_facts.

(** ** More on EDNS Client Subnet extraction *)

Module dnsmsg_ecs_more.

Import netip netip_facts dns dnsmsg dnsmsg_ecs dnsmsg_do.

Lemma zone_eqb_eq a b : zone_eqb a b = true -> a = b.
Proof.
  destruct a, b; cbn; try discriminate; try reflexivity.
  intros H. apply String.eqb_eq in H. now subst.
Qed.

Lemma Prefix_eqb_eq p q : Prefix_eqb p q = true -> p = q.
Proof.
  destruct p as [[[h1 l1] z1] b1], q as [[[h2 l2] z2] b2].
  unfold Prefix_eqb, Addr_eqb. cbn [ip bitsPlusOne addr z hi lo].
  intros H. apply andb_true_iff in H as [H Hb].
  apply andb_true_iff in H as [H Hz]. apply andb_true_iff in H as [Hh Hl].
  apply Z.eqb_eq in Hh, Hl, Hb. apply zone_eqb_eq in Hz. now subst.
Qed.

Lemma lastOPT_noOPT rrs found :
  noOPT rrs = true -> lastOPT rrs found = found.
Proof.
  revert found. induction rrs as [|rr rrs IH]; intros found H; [reflexivity|].
  cbn [noOPT forallb] in H. apply andb_true_iff in H as [Hrr Hrrs].
  apply negb_true_iff in Hrr.
  destruct rr; cbn [lastOPT Header] in *; try (now apply IH).
  rewrite Hrr. now apply IH.
Qed.

Lemma lastOPT_Record rrs found :
  lastOPT rrs (option_map snd found) = option_map snd (lastOPTRecord rrs found).
Proof.
  revert found. induction rrs as [|rr rrs IH]; intros found; [reflexivity|].
  destruct rr; cbn [lastOPT lastOPTRecord]; try apply IH.
  destruct (Rrtype hdr =? TypeOPT); [apply (IH (Some (hdr, option)))|apply IH].
Qed.

(** The two readings of [Msg.IsEdns0] agree. *)
Lemma IsEdns0_Record m : IsEdns0 m = option_map snd (IsEdns0Record m).
Proof. exact (lastOPT_Record (elems (Extra m)) None). Qed.

Section ECSMore.

Variable E : Type.
Variable IPToAddr : IP -> agdnet.AddrFamily -> Addr * option E.

Lemma ecsFromOptions_noSubnet opts :
  noSubnet opts = true -> ecsFromOptions IPToAddr opts = (zeroPrefix, 0, None).
Proof.
  intros H. rewrite <- (app_nil_r opts).
  now rewrite ecsFromOptions_skip.
Qed.

(** X1. For a message without a client-subnet option, [ECSFromMsg] returns
    the zero prefix, scope 0 and no error: both when no record of the
    additional section has the type OPT (also when that section is [nil]
    or empty), and when the OPT record holds only other options. *)
Theorem ECSFromMsg_without_subnet (msg : Msg) :
  (noOPT (elems (Extra msg)) = true ->
   ECSFromMsg IPToAddr msg = (zeroPrefix, 0, None)) /\
  (forall opts,
      IsEdns0 msg = Some opts -> noSubnet opts = true ->
      ECSFromMsg IPToAddr msg = (zeroPrefix, 0, None)).
Proof.
  unfold ECSFromMsg. split.
  - intros H. unfold IsEdns0. now rewrite lastOPT_noOPT.
  - intros opts -> H. now apply ecsFromOptions_noSubnet.
Qed.

(** What a successful [ecsData] has checked. *)
Lemma ecsData_ok_inv esn subnet scope :
  ecsData IPToAddr esn = (subnet, scope, None) ->
  exists a,
    IPToAddr (Address esn) (Family esn) = (a, None) /\
    (Family esn = agdnet.AddrFamilyIPv4 \/ Family esn = agdnet.AddrFamilyIPv6) /\
    isZero a = false /\ 0 <= SourceNetmask esn <= BitLen a /\
    Prefix_eqb (Masked (PrefixFrom a (SourceNetmask esn)))
      (PrefixFrom a (SourceNetmask esn)) = true /\
    subnet = PrefixFrom a (SourceNetmask esn) /\ scope = SourceScope esn.
Proof.
  unfold ecsData.
  destruct (Family esn =? agdnet.AddrFamilyIPv4) eqn:H4;
    destruct (Family esn =? agdnet.AddrFamilyIPv6) eqn:H6;
    cbn [negb andb]; try discriminate.
  all: destruct (IPToAddr (Address esn) (Family esn)) as [a [err|]];
    [discriminate|].
  all: destruct (IsValid (PrefixFrom a (SourceNetmask esn))) eqn:Hv;
    cbn [negb]; [|discriminate].
  all: destruct (Prefix_eqb _ _) eqn:Hc; cbn [negb]; [|discriminate].
  all: intros H; injection H as <- <-; exists a.
  all: rewrite PrefixFrom_IsValid in Hv;
    apply andb_true_iff in Hv as [Hv H3]; apply andb_true_iff in Hv as [H1 H2];
    apply Z.leb_le in H2, H3; apply negb_true_iff in H1.
  all: apply Z.eqb_eq in H4 || apply Z.eqb_eq in H6.
  all: repeat split; auto.
Qed.

(** X2. For an option whose address converts to the well-formed address
    [a], [ecsData] succeeds exactly when the family is 1 or 2, [a] is not
    the zero address, the source netmask is between 0 and the bit length
    of [a], and no bit of [a] after the netmask is set; it then returns
    the prefix of [a] with that length and the source scope of the
    option. *)
Theorem ecsData_ok_iff esn a subnet scope :
  IPToAddr (Address esn) (Family esn) = (a, None) ->
  wfAddr a ->
  ecsData IPToAddr esn = (subnet, scope, None) <->
  (Family esn = 1 \/ Family esn = 2) /\
  isZero a = false /\ 0 <= SourceNetmask esn <= BitLen a /\
  ~ bitsBeyondPrefix a (SourceNetmask esn) /\
  subnet = PrefixFrom a (SourceNetmask esn) /\ scope = SourceScope esn.
Proof.
  intros Hip Hwf. split.
  - intros H. apply ecsData_ok_inv in H as [a' [Hip' [Hf [Hz [Hn [Hc [Hs Hsc]]]]]]].
    rewrite Hip in Hip'. injection Hip' as <-.
    repeat split; auto; try lia. now apply Masked_check_iff in Hc.
  - intros [Hf [Hz [Hn [Hb [-> ->]]]]]. now apply ecsData_within_prefix.
Qed.

Lemma ecsData_ok_nonzero esn subnet scope :
  ecsData IPToAddr esn = (subnet, scope, None) ->
  Prefix_eqb subnet zeroPrefix = false.
Proof.
  intros H. apply ecsData_ok_inv in H as [a [_ [_ [Hz [Hn [_ [-> _]]]]]]].
  now apply PrefixFrom_valid_nonzero.
Qed.

Lemma ecsData_error_zero esn subnet scope err :
  ecsData IPToAddr esn = (subnet, scope, Some err) ->
  subnet = zeroPrefix /\ scope = 0.
Proof.
  unfold ecsData.
  destruct (negb _ && negb _); [intros H; injection H as <- <- _; now split|].
  destruct (IPToAddr _ _) as [a [e|]]; [intros H; injection H as <- <- _; now split|].
  destruct (negb (IsValid _)); [intros H; injection H as <- <- _; now split|].
  destruct (negb (Prefix_eqb _ _)); [intros H; injection H as <- <- _; now split|].
  discriminate.
Qed.

(** The loop stops at the first client-subnet option. *)
Lemma ecsFromOptions_first pre esn post :
  noSubnet pre = true ->
  ecsFromOptions IPToAddr (pre ++ OptSubnet esn :: post) =
  match ecsData IPToAddr esn with
  | (_, _, Some err) => (zeroPrefix, 0, Some (mkBadECSError err))
  | (subnet, scope, None) => (subnet, scope, None)
  end.
Proof.
  intros Hpre. rewrite ecsFromOptions_skip by exact Hpre.
  cbn [ecsFromOptions].
  destruct (ecsData IPToAddr esn) as [[subnet scope] [err|]] eqn:Hd;
    [reflexivity|].
  now rewrite (ecsData_ok_nonzero _ _ _ Hd).
Qed.

(** X4. The first client-subnet option of the OPT record alone decides the
    result of [ECSFromMsg]: its error, or its prefix and scope.  The
    options after it are never looked at, because a successful [ecsData]
    never returns the zero prefix. *)
Theorem ECSFromMsg_first_subnet_decides msg pre esn post :
  IsEdns0 msg = Some (pre ++ OptSubnet esn :: post)%list ->
  noSubnet pre = true ->
  ECSFromMsg IPToAddr msg =
  match ecsData IPToAddr esn with
  | (_, _, Some err) => (zeroPrefix, 0, Some (mkBadECSError err))
  | (subnet, scope, None) => (subnet, scope, None)
  end.
Proof.
  intros Hopt Hpre. unfold ECSFromMsg. rewrite Hopt.
  now apply ecsFromOptions_first.
Qed.

(** X5. For an option of family 1 or 2 whose address converts without
    error, a source netmask above the bit length of the address (32 for
    IPv4, 128 for IPv6), a negative one, or a zero address make [ecsData]
    fail with the bad-source-netmask error, whatever the bits of the
    address. *)
Theorem ecsData_netmask_out_of_range esn a :
  Family esn = 1 \/ Family esn = 2 ->
  IPToAddr (Address esn) (Family esn) = (a, None) ->
  isZero a = true \/ SourceNetmask esn < 0 \/ BitLen a < SourceNetmask esn ->
  ecsData IPToAddr esn =
  (zeroPrefix, 0, Some (ErrBadSrcNetmask (SourceNetmask esn) (Family esn))).
Proof.
  intros Hfam Hip Hbad. unfold ecsData.
  replace (negb (Family esn =? _) && negb (Family esn =? _)) with false
    by (destruct Hfam as [-> | ->]; reflexivity).
  rewrite Hip, PrefixFrom_IsValid.
  replace (negb (isZero a) && (0 <=? SourceNetmask esn)
           && (SourceNetmask esn <=? BitLen a)) with false; [reflexivity|].
  symmetry. destruct Hbad as [Hz | [Hn | Hn]].
  - now rewrite Hz.
  - replace (0 <=? SourceNetmask esn) with false
      by (symmetry; apply Z.leb_gt; lia).
    now rewrite andb_false_r.
  - replace (SourceNetmask esn <=? BitLen a) with false
      by (symmetry; apply Z.leb_gt; lia).
    now rewrite andb_false_r.
Qed.

(** X6. A source netmask equal to the bit length of the address leaves no
    bit beyond the prefix: an option of family 1 or 2 with a well-formed,
    non-zero address and such a netmask is always accepted, and the
    prefix of full length is returned with the source scope. *)
Theorem ecsData_full_length_accepted esn a :
  Family esn = 1 \/ Family esn = 2 ->
  IPToAddr (Address esn) (Family esn) = (a, None) ->
  wfAddr a -> isZero a = false ->
  SourceNetmask esn = BitLen a ->
  ecsData IPToAddr esn = (PrefixFrom a (BitLen a), SourceScope esn, None).
Proof.
  intros Hfam Hip Hwf Hz Hn. pose proof (BitLen_bound a) as Hb.
  rewrite <- Hn. apply ecsData_within_prefix; auto; try lia.
  intros [i [Hi _]]. lia.
Qed.

Lemma ecsFromOptions_outcome opts :
  let '(subnet, scope, err) := ecsFromOptions IPToAddr opts in
  (err <> None -> subnet = zeroPrefix /\ scope = 0) /\
  (err = None ->
   (subnet = zeroPrefix /\ scope = 0) \/
   exists esn,
     In (OptSubnet esn) opts /\
     (Family esn = 1 \/ Family esn = 2) /\
     IsValid subnet = true /\ Masked subnet = subnet /\
     z (ip subnet) <> z0 /\ (forall name, z (ip subnet) <> z6zone name) /\
     Bits subnet = SourceNetmask esn /\ scope = SourceScope esn).
Proof.
  induction opts as [|o opts IH]; cbn [ecsFromOptions].
  - split; [intros _; now split | intros _; left; now split].
  - destruct o as [esn|code data].
    + destruct (ecsData IPToAddr esn) as [[subnet scope] [err|]] eqn:Hd.
      * split; [intros _; now split | discriminate].
      * rewrite (ecsData_ok_nonzero _ _ _ Hd). cbn [negb].
        split; [congruence|]. intros _. right. exists esn.
        apply ecsData_ok_inv in Hd as [a [_ [Hf [Hz [Hn [Hc [-> ->]]]]]]].
        split; [now left|]. split; [exact Hf|].
        split; [rewrite PrefixFrom_IsValid, Hz;
                replace (0 <=? SourceNetmask esn) with true by (symmetry; apply Z.leb_le; lia);
                now replace (SourceNetmask esn <=? BitLen a) with true by (symmetry; apply Z.leb_le; lia)|].
        split; [now apply Prefix_eqb_eq|].
        rewrite PrefixFrom_valid by assumption. unfold Bits. cbn [ip bitsPlusOne].
        split; [|split; [|split; [lia|reflexivity]]].
        -- destruct a as [u zn]. unfold isZero, withoutZone, Is6 in *. cbn [z] in *.
           destruct zn; cbn; congruence.
        -- intros name. destruct a as [u zn]. unfold withoutZone, Is6. cbn [z].
           destruct zn; cbn; congruence.
    + destruct (ecsFromOptions IPToAddr opts) as [[subnet scope] err].
      destruct IH as [IH1 IH2]. split; [exact IH1|].
      intros Herr. destruct (IH2 Herr) as [H | [esn [Hin H]]]; [now left|].
      right. exists esn. split; [now right | exact H].
Qed.

(** X3. Whatever the message, [ECSFromMsg] returns one of three things: an
    error with the zero prefix and scope 0; no error with the zero prefix
    and scope 0; or no error with a prefix that is valid, equal to its
    masked form, of an address without a zone, whose length is the source
    netmask and whose scope is the source scope of a client-subnet option
    of family 1 or 2 in the OPT record of the message. *)
Theorem ECSFromMsg_outcome (msg : Msg) :
  let '(subnet, scope, err) := ECSFromMsg IPToAddr msg in
  (err <> None -> subnet = zeroPrefix /\ scope = 0) /\
  (err = None ->
   (subnet = zeroPrefix /\ scope = 0) \/
   exists opts esn,
     IsEdns0 msg = Some opts /\ In (OptSubnet esn) opts /\
     (Family esn = 1 \/ Family esn = 2) /\
     IsValid subnet = true /\ Masked subnet = subnet /\
     z (ip subnet) <> z0 /\ (forall name, z (ip subnet) <> z6zone name) /\
     Bits subnet = SourceNetmask esn /\ scope = SourceScope esn).
Proof.
  unfold ECSFromMsg. destruct (IsEdns0 msg) as [opts|].
  - pose proof (ecsFromOptions_outcome opts) as H.
    destruct (ecsFromOptions IPToAddr opts) as [[subnet scope] err].
    destruct H as [H1 H2]. split; [exact H1|]. intros Herr.
    destruct (H2 Herr) as [H | [esn H]]; [now left|].
    right. now exists opts, esn.
  - split; [intros _; now split | intros _; left; now split].
Qed.

End ECSMore.

Lemma ecsData_ok_iff_witness :
  (Family sample_ecs.esn_1_2_3_0_24 = 1 \/ Family sample_ecs.esn_1_2_3_0_24 = 2) /\
  isZero (AddrFrom4 [x01; x02; x03; x00]) = false /\
  0 <= 24 <= BitLen (AddrFrom4 [x01; x02; x03; x00]) /\
  ~ bitsBeyondPrefix (AddrFrom4 [x01; x02; x03; x00]) 24 /\
  PrefixFrom (AddrFrom4 [x01; x02; x03; x00]) 24 =
  PrefixFrom (AddrFrom4 [x01; x02; x03; x00]) 24 /\
  16 = SourceScope sample_ecs.esn_1_2_3_0_24.
Proof.
  refine (proj1 (ecsData_ok_iff unit agdnet.IPToAddr_bytes
                   sample_ecs.esn_1_2_3_0_24
                   (AddrFrom4 [x01; x02; x03; x00])
                   (PrefixFrom (AddrFrom4 [x01; x02; x03; x00]) 24) 16
                   eq_refl _) eq_refl).
  unfold wfAddr. cbn. lia.
Defined.

(** The well-formed first client subnet is returned; the malformed second
    one is not looked at. *)
Lemma ECSFromMsg_first_subnet_decides_witness :
  ECSFromMsg agdnet.IPToAddr_bytes sample_ecs.msg_two_subnets =
  (PrefixFrom (AddrFrom4 [x01; x02; x03; x00]) 24, 16, None).
Proof.
  exact (ECSFromMsg_first_subnet_decides unit agdnet.IPToAddr_bytes
           sample_ecs.msg_two_subnets [OptOther 10 []]
           sample_ecs.esn_1_2_3_0_24 [OptSubnet sample.esn_1_2_3_4_24]
           eq_refl eq_refl).
Defined.

(** The host address [1.2.3.4/32] is accepted whatever its bits. *)
Lemma ecsData_full_length_accepted_witness :
  ecsData agdnet.IPToAddr_bytes sample_ecs.esn_1_2_3_4_32 =
  (PrefixFrom (AddrFrom4 [x01; x02; x03; x04]) 32, 0, None).
Proof.
  refine (ecsData_full_length_accepted unit agdnet.IPToAddr_bytes
            sample_ecs.esn_1_2_3_4_32 (AddrFrom4 [x01; x02; x03; x04])
            (or_introl eq_refl) eq_refl _ eq_refl eq_refl).
  unfold wfAddr. cbn. lia.
Defined.

Lemma ecsData_netmask_out_of_range_witness :
  ecsData agdnet.IPToAddr_bytes sample_ecs.esn_1_2_3_0_33 =
  (zeroPrefix, 0, Some (ErrBadSrcNetmask 33 1)).
Proof.
  refine (ecsData_netmask_out_of_range unit agdnet.IPToAddr_bytes
            sample_ecs.esn_1_2_3_0_33 (AddrFrom4 [x01; x02; x03; x00])
            (or_introl eq_refl) eq_refl _).
  right. right. cbn. lia.
Defined.

End dnsmsg_ecs_more.

(** ** The DNSSEC OK bit, and cloning *)

Module dnsmsg_do_facts.

Import dns dnsmsg dnsmsg_do dnsmsg_clone dnsmsg_ecs_more.

Lemma land_DO x : (Z.land x _DO =? _DO) = Z.testbit x 15.
Proof.
  unfold _DO. rewrite Z.shiftl_1_l.
  destruct (Z.testbit x 15) eqn:Hb.
  - apply Z.eqb_eq, Z.bits_inj'. intros n Hn.
    rewrite Z.land_spec, Z.pow2_bits_eqb by lia.
    destruct (Z.eqb_spec 15 n) as [<-|]; [now rewrite Hb|apply andb_false_r].
  - apply Z.eqb_neq. intros H.
    apply (f_equal (fun v => Z.testbit v 15)) in H.
    rewrite Z.land_spec, Hb, Z.pow2_bits_true in H by lia. discriminate.
Qed.

Lemma lastOPTRecord_noOPT rrs found :
  noOPT rrs = true -> lastOPTRecord rrs found = found.
Proof.
  revert found. induction rrs as [|rr rrs IH]; intros found H; [reflexivity|].
  cbn [noOPT forallb] in H. apply andb_true_iff in H as [Hrr Hrrs].
  apply negb_true_iff in Hrr.
  destruct rr; cbn [lastOPTRecord Header] in *; try (now apply IH).
  rewrite Hrr. now apply IH.
Qed.

Lemma lastOPTRecord_app rrs1 rrs2 found :
  lastOPTRecord (rrs1 ++ rrs2) found =
  lastOPTRecord rrs2 (lastOPTRecord rrs1 found).
Proof.
  revert found. induction rrs1 as [|rr rrs1 IH]; intros found; [reflexivity|].
  destruct rr; cbn [app lastOPTRecord]; apply IH.
Qed.

Lemma IsEdns0Record_last msg before hdr opts after :
  elems (Extra msg) = (before ++ OPT hdr opts :: after)%list ->
  Rrtype hdr = TypeOPT -> noOPT after = true ->
  IsEdns0Record msg = Some (hdr, opts).
Proof.
  intros Hex Hty Hafter. unfold IsEdns0Record.
  rewrite Hex, lastOPTRecord_app. cbn [lastOPTRecord].
  rewrite Hty, Z.eqb_refl. now apply lastOPTRecord_noOPT.
Qed.

(** X7. [IsDO] is false for a message with no record of type OPT in its
    additional section; otherwise it is bit 15 of the TTL of the last
    OPT record of that section, the record whose options [ECSFromMsg]
    reads. *)
Theorem IsDO_last_OPT_bit (msg : Msg) :
  (noOPT (elems (Extra msg)) = true -> IsDO msg = false) /\
  (forall before hdr opts after,
      elems (Extra msg) = (before ++ OPT hdr opts :: after)%list ->
      Rrtype hdr = TypeOPT -> noOPT after = true ->
      IsDO msg = Z.testbit (Ttl hdr) 15 /\ IsEdns0 msg = Some opts).
Proof.
  split.
  - intros H. unfold IsDO, IsEdns0Record. now rewrite lastOPTRecord_noOPT.
  - intros before hdr opts after Hex Hty Hafter.
    assert (Hr := IsEdns0Record_last msg before hdr opts after Hex Hty Hafter).
    split.
    + unfold IsDO. rewrite Hr. apply land_DO.
    + now rewrite IsEdns0_Record, Hr.
Qed.

(** X8. The clone of a message has the same header, compression flag,
    questions and records as the message, and the same [nil] or non-[nil]
    record sections.  Only the question slice can differ: it is [nil] in
    the clone exactly when the message has no question, so a question
    slice that is present but empty becomes [nil]; for every other
    message the clone equals the message. *)
Theorem Clone_equal_but_empty_question (m : Msg) :
  exists c,
    Clone (Some m) = Some c /\
    Hdr c = Hdr m /\ Compress c = Compress m /\
    elems (Questions c) = elems (Questions m) /\
    (Questions c = None <-> len (Questions m) = 0%nat) /\
    Answer c = Answer m /\ Ns c = Ns m /\ Extra c = Extra m /\
    (Questions m <> Some [] -> c = m).
Proof.
  eexists. split; [reflexivity|].
  destruct m as [h cp [[|q qs]|] [an|] [ns|] [ex|]];
    cbn; unfold Copy; cbn; rewrite ?map_copyRR; repeat split; intros;
    try reflexivity; try discriminate; congruence.
Qed.

Lemma Clone_Clone_Some m c : Clone (Some m) = Some c -> Clone (Some c) = Some c.
Proof.
  intros H. injection H as <-.
  destruct m as [h cp [[|q qs]|] [an|] [ns|] [ex|]];
    cbn; unfold Copy; cbn; rewrite ?map_copyRR; reflexivity.
Qed.

(** X9. Cloning a clone gives the clone again, also for the [nil]
    message. *)
Theorem Clone_idempotent (msg : option Msg) : Clone (Clone msg) = Clone msg.
Proof.
  destruct msg as [m|]; [|reflexivity].
  destruct (Clone (Some m)) as [c|] eqn:Hc; [|discriminate].
  now apply (Clone_Clone_Some m).
Qed.

(** X10. Cloning changes neither the DNSSEC OK bit that [IsDO] reads nor
    the result of [ECSFromMsg]. *)
Theorem Clone_keeps_EDNS (E : Type)
  (IPToAddr : IP -> agdnet.AddrFamily -> netip.Addr * option E) (m : Msg) :
  exists c,
    Clone (Some m) = Some c /\
    IsDO c = IsDO m /\
    ECSFromMsg IPToAddr c = ECSFromMsg IPToAddr m.
Proof.
  destruct (Clone_sections m) as [c [Hc [_ [_ He]]]].
  exists c. split; [exact Hc|].
  unfold IsDO, IsEdns0Record, ECSFromMsg, IsEdns0. now rewrite He.
Qed.

End dnsmsg_do_facts.

(** ** The requests of the linked-IP proxy *)

Module websvc_proxy_facts.

Import strings strings_facts websvc websvc_facts http websvc_proxy.

Lemma store_same key values h : store key values h key = Some values.
Proof. unfold store. now rewrite String.eqb_refl. Qed.

Lemma store_other key values h k :
  k <> key -> store key values h k = h k.
Proof. intros H. unfold store. apply String.eqb_neq in H. now rewrite H. Qed.

Lemma delete_same key h : delete key h key = None.
Proof. unfold delete. now rewrite String.eqb_refl. Qed.

Lemma delete_other key h k : k <> key -> delete key h k = h k.
Proof. intros H. unfold delete. apply String.eqb_neq in H. now rewrite H. Qed.

(** Rewrites the lookups of a key that differs from the keys written. *)
Ltac other_key :=
  repeat first
    [ rewrite store_other by (assumption || discriminate || congruence)
    | rewrite delete_other by (assumption || discriminate || congruence) ].

Section ProxyFacts.

Variable HdrNameUserAgent : string.
Variable HdrNameServer : string.
Variable HdrNameXRequestID : string.
Variable HdrNameAccessControlAllowOrigin : string.
Variable HdrValWildcard : string.
Variable UserAgent : string.
Variable SplitHost : string -> option string.

(** The handler with the headers agrees with the dispatch alone. *)
Lemma ServeHTTPRequest_dispatch reqID r :
  ServeHTTP SplitHost (Method r) (Path (ReqURL r)) (RemoteAddr r) =
  match ServeHTTPRequest HdrNameXRequestID SplitHost reqID r with
  | Forward _ =>
      match SplitHost (RemoteAddr r) with
      | Some ip => Proxied ip
      | None => InternalServerError
      end
  | Status500 => InternalServerError
  | Robots => RobotsDisallow
  | Status404 => NotFound
  end.
Proof.
  unfold ServeHTTP, ServeHTTPRequest.
  destruct (shouldProxy _ _).
  - destruct (SplitHost _); reflexivity.
  - destruct (String.eqb _ _); reflexivity.
Qed.

(** X11. When [ServeHTTP] forwards a request, whatever headers the client
    sent, the forwarded request has no [Forwarded], [True-Client-IP] or
    [X-Real-IP] header, its [CF-Connecting-IP] header is exactly the host
    of the remote address of the connection, the request-ID header is the
    new request ID, every other header is as the client sent it, and
    method, URL and host are unchanged.  The name of the request-ID header
    must differ from the four names above. *)
Theorem ServeHTTP_forwards_real_ip reqID r ip :
  shouldProxy (Method r) (Path (ReqURL r)) = true ->
  SplitHost (RemoteAddr r) = Some ip ->
  let xrid := CanonicalMIMEHeaderKey HdrNameXRequestID in
  ~ In xrid ["Forwarded"; "True-Client-Ip"; "X-Real-Ip"; "Cf-Connecting-Ip"] ->
  exists r',
    ServeHTTPRequest HdrNameXRequestID SplitHost reqID r = Forward r' /\
    ReqHeader r' "Forwarded" = None /\
    ReqHeader r' "True-Client-Ip" = None /\
    ReqHeader r' "X-Real-Ip" = None /\
    ReqHeader r' "Cf-Connecting-Ip" = Some (Some [ip]) /\
    ReqHeader r' xrid = Some (Some [reqID]) /\
    (forall k,
        ~ In k ["Forwarded"; "True-Client-Ip"; "X-Real-Ip";
                "Cf-Connecting-Ip"; xrid] ->
        ReqHeader r' k = ReqHeader r k) /\
    Method r' = Method r /\ ReqURL r' = ReqURL r /\ Host r' = Host r.
Proof.
  intros Hproxy Hip xrid Hx. unfold ServeHTTPRequest.
  rewrite Hproxy, Hip. eexists. split; [reflexivity|].
  cbn [ReqHeader Method ReqURL Host]. unfold Set_, Del. fold xrid.
  change (CanonicalMIMEHeaderKey "Forwarded") with "Forwarded".
  change (CanonicalMIMEHeaderKey "True-Client-IP") with "True-Client-Ip".
  change (CanonicalMIMEHeaderKey "X-Real-IP") with "X-Real-Ip".
  change (CanonicalMIMEHeaderKey "CF-Connecting-IP") with "Cf-Connecting-Ip".
  cbn [In] in Hx.
  assert (H1 : "Forwarded" <> xrid) by tauto.
  assert (H2 : "True-Client-Ip" <> xrid) by tauto.
  assert (H3 : "X-Real-Ip" <> xrid) by tauto.
  assert (H4 : "Cf-Connecting-Ip" <> xrid) by tauto.
  repeat split.
  - other_key. apply delete_same.
  - other_key. apply delete_same.
  - other_key. apply delete_same.
  - other_key. apply store_same.
  - apply store_same.
  - intros k Hk. cbn [In] in Hk.
    assert (k <> "Forwarded" /\ k <> "True-Client-Ip" /\ k <> "X-Real-Ip"
            /\ k <> "Cf-Connecting-Ip" /\ k <> xrid)
      as [K1 [K2 [K3 [K4 K5]]]]
      by (repeat split; intros ->; tauto).
    now other_key.
Qed.

(** X12. The director of the reverse proxy sets the scheme and the host of
    the URL and the [Host] of the request to those of the API URL, keeps
    method, path and query, stores [X-Forwarded-For] with a [nil] value
    (so that the proxy adds none), sets the user-agent header to the user
    agent of the program and leaves every other header as it was.  The
    name of the user-agent header must differ from [X-Forwarded-For]. *)
Theorem director_rewrites_target apiURL r :
  let ua := CanonicalMIMEHeaderKey HdrNameUserAgent in
  ua <> "X-Forwarded-For" ->
  let r' := director HdrNameUserAgent UserAgent apiURL r in
  Scheme (ReqURL r') = Scheme apiURL /\
  URLHost (ReqURL r') = URLHost apiURL /\
  Host r' = URLHost apiURL /\
  Path (ReqURL r') = Path (ReqURL r) /\
  RawQuery (ReqURL r') = RawQuery (ReqURL r) /\
  Method r' = Method r /\
  ReqHeader r' "X-Forwarded-For" = Some None /\
  ReqHeader r' ua = Some (Some [UserAgent]) /\
  (forall k, k <> "X-Forwarded-For" -> k <> ua ->
             ReqHeader r' k = ReqHeader r k).
Proof.
  intros ua Hua r'. unfold r', director, Set_. fold ua.
  cbn [ReqURL Scheme URLHost Host Path RawQuery Method ReqHeader].
  repeat split.
  - rewrite store_other by congruence. apply store_same.
  - apply store_same.
  - intros k K1 K2. now other_key.
Qed.

(** X13. [ModifyResponse] never fails; the header of the response then has no
    server header, the access-control-allow-origin header is exactly the
    wildcard value, and every other header is as the backend sent it.  The
    two header names must differ. *)
Theorem modifyResponse_headers hdr :
  let server := CanonicalMIMEHeaderKey HdrNameServer in
  let acao := CanonicalMIMEHeaderKey HdrNameAccessControlAllowOrigin in
  acao <> server ->
  let '(hdr', err) :=
    modifyResponse HdrNameServer HdrNameAccessControlAllowOrigin
      HdrValWildcard hdr in
  err = None /\
  hdr' server = None /\
  hdr' acao = Some (Some [HdrValWildcard]) /\
  (forall k, k <> server -> k <> acao -> hdr' k = hdr k).
Proof.
  intros server acao Hne. unfold modifyResponse, Set_, Del.
  fold server. fold acao. repeat split.
  - rewrite store_other by congruence. apply delete_same.
  - apply store_same.
  - intros k K1 K2. now other_key.
Qed.


End ProxyFacts.

(** The headers that claim a client address are gone from the forwarded
    sample request, and the address of the connection is there. *)
Lemma ServeHTTP_forwards_real_ip_witness :
  exists r',
    ServeHTTPRequest "X-Request-Id" sampleSplitHost "req-1" spoofedRequest
    = Forward r' /\
    ReqHeader r' "Forwarded" = None /\
    ReqHeader r' "True-Client-Ip" = None /\
    ReqHeader r' "X-Real-Ip" = None /\
    ReqHeader r' "Cf-Connecting-Ip" = Some (Some ["192.0.2.1"]) /\
    ReqHeader r' "Accept" = Some (Some ["*/*"]).
Proof.
  destruct (ServeHTTP_forwards_real_ip "X-Request-Id" sampleSplitHost
              "req-1" spoofedRequest "192.0.2.1" eq_refl eq_refl)
    as [r' [Hr [H1 [H2 [H3 [H4 [_ [Hk _]]]]]]]].
  - cbv. intuition discriminate.
  - exists r'. repeat split; try assumption.
    rewrite Hk; [reflexivity|]. cbv. intuition discriminate.
Defined.


Lemma director_rewrites_target_witness :
  ReqHeader
    (director "User-Agent" "AdGuardDNS/test"
       {| Scheme := "https"; URLHost := "api.example.org"; Path := "/";
          RawQuery := "" |} spoofedRequest) "X-Forwarded-For"
  = Some None.
Proof.
  refine (proj1 (proj2 (proj2 (proj2 (proj2 (proj2 (proj2
            (director_rewrites_target "User-Agent" "AdGuardDNS/test"
               {| Scheme := "https"; URLHost := "api.example.org";
                  Path := "/"; RawQuery := "" |} spoofedRequest _)))))))).
  cbv. discriminate.
Defined.

Lemma modifyResponse_headers_witness :
  fst (modifyResponse "Server" "Access-Control-Allow-Origin" "*"
         (store "Server" (Some ["nginx"]) emptyHeader)) "Server"
  = None.
Proof.
  refine (proj1 (proj2 (modifyResponse_headers "Server"
                          "Access-Control-Allow-Origin" "*"
                          (store "Server" (Some ["nginx"]) emptyHeader) _))).
  cbv. discriminate.
Defined.

Lemma TrimPrefix_slash_slash p : TrimPrefix ("//" ++ p) "/" = "/" ++ p.
Proof. reflexivity. Qed.

(** X15. Only one leading slash is dropped from the path: a path that
    starts with two slashes is never proxied, for any method, and a path
    without a leading slash is treated like the same path with one. *)
Theorem shouldProxy_leading_slashes method p :
  shouldProxy method ("//" ++ p) = false /\
  (HasPrefix p "/" = false ->
   shouldProxy method ("/" ++ p) = shouldProxy method p).
Proof.
  split.
  - destruct (shouldProxy method ("//" ++ p)) eqn:H; [|reflexivity].
    apply shouldProxy_sound in H. rewrite TrimPrefix_slash_slash in H.
    inversion H.
  - intros Hp. unfold shouldProxy.
    change (TrimPrefix ("/" ++ p) "/") with p.
    replace (TrimPrefix p "/") with p; [reflexivity|].
    unfold HasPrefix in Hp. unfold TrimPrefix.
    now destruct (CutPrefix p "/").
Qed.

End websvc_proxy_facts.

(** ** Validation of the filters configuration *)

Module cmd_filters_facts.

Import cmd_filters.

(** X16. [validate] accepts a filters configuration exactly when it is not
    [nil] and its response TTL, refresh interval and refresh timeout are
    all positive.  It reports [errNilConfig] for [nil], and otherwise
    the first of [response_ttl], [refresh_interval], [refresh_timeout]
    that is not positive, with its value.  The custom filter cache size
    is not checked: it never changes the result. *)
Theorem filtersConfig_validate (c : option filtersConfig) :
  (validate c = None <->
   exists cfg,
     c = Some cfg /\
     0 < ResponseTTL cfg /\ 0 < RefreshIvl cfg /\ 0 < RefreshTimeout cfg) /\
  (c = None -> validate c = Some errNilConfig) /\
  (forall cfg,
      c = Some cfg ->
      (ResponseTTL cfg <= 0 ->
       validate c = Some (MustBePositiveError "response_ttl" (ResponseTTL cfg))) /\
      (0 < ResponseTTL cfg -> RefreshIvl cfg <= 0 ->
       validate c =
       Some (MustBePositiveError "refresh_interval" (RefreshIvl cfg))) /\
      (0 < ResponseTTL cfg -> 0 < RefreshIvl cfg -> RefreshTimeout cfg <= 0 ->
       validate c =
       Some (MustBePositiveError "refresh_timeout" (RefreshTimeout cfg))) /\
      (forall size,
          validate c =
          validate (Some {| CustomFilterCacheSize := size;
                            ResponseTTL := ResponseTTL cfg;
                            RefreshIvl := RefreshIvl cfg;
                            RefreshTimeout := RefreshTimeout cfg |}))).
Proof.
  split; [|split].
  - destruct c as [cfg|]; cbn [validate].
    + destruct (Z.leb_spec (ResponseTTL cfg) 0) as [L1|L1];
        [split; [discriminate | intros [c' [H ?]]; injection H as <-; lia]|].
      destruct (Z.leb_spec (RefreshIvl cfg) 0) as [L2|L2];
        [split; [discriminate | intros [c' [H ?]]; injection H as <-; lia]|].
      destruct (Z.leb_spec (RefreshTimeout cfg) 0) as [L3|L3];
        [split; [discriminate | intros [c' [H ?]]; injection H as <-; lia]|].
      split; [intros _; now exists cfg | reflexivity].
    + split; [discriminate | intros [c' [H _]]; discriminate].
  - intros ->. reflexivity.
  - intros cfg ->. cbn [validate ResponseTTL RefreshIvl RefreshTimeout].
    repeat split.
    + intros H. apply Z.leb_le in H. now rewrite H.
    + intros H1 H2. apply Z.leb_gt in H1. apply Z.leb_le in H2.
      now rewrite H1, H2.
    + intros H1 H2 H3. apply Z.leb_gt in H1, H2. apply Z.leb_le in H3.
      now rewrite H1, H2, H3.
Qed.

End cmd_filters_facts.

(** ** Reading a JSON answer in the tests *)

Module dnsserver_test_facts.

Import dns dnsserver_test.

Section UnpackFacts.

Variable E : Type.
Variable Unmarshal : list byte -> option dnsserver.JSONMsg * option E.
Variable ParseIP : string -> IP.

Lemma append_elems {A : Type} (s : slice A) x :
  elems (append s x) = (elems s ++ [x])%list.
Proof. reflexivity. Qed.

Lemma questions_fold qs acc :
  exists s,
    fold_left (fun m q => append m (jsonQuestion q)) qs acc = s /\
    elems s = (elems acc ++ map jsonQuestion qs)%list /\
    (s = None <-> acc = None /\ qs = []).
Proof.
  revert acc. induction qs as [|q qs IH]; intros acc; cbn [fold_left map].
  - exists acc. rewrite app_nil_r. repeat split; tauto.
  - destruct (IH (append acc (jsonQuestion q))) as [s [Hs [He Hn]]].
    exists s. split; [exact Hs|]. split.
    + rewrite He, append_elems, <- app_assoc. reflexivity.
    + split; [intros H; apply Hn in H as [H _]; discriminate|].
      intros [_ H]. discriminate.
Qed.

Lemma answers_Some l acc :
  forallb supported l = true ->
  exists s rrs,
    answers ParseIP l acc = Some s /\
    elems s = (elems acc ++ rrs)%list /\
    map Header rrs = map jsonHeader l /\
    (s = None <-> acc = None /\ l = []).
Proof.
  revert acc. induction l as [|a l IH]; intros acc H; cbn [answers].
  - exists acc, []. rewrite app_nil_r. repeat split; tauto.
  - cbn [forallb] in H. apply andb_true_iff in H as [Ha Hl].
    unfold supported in Ha.
    destruct (dnsserver.Type_ a =? TypeA) eqn:H1;
      [|destruct (dnsserver.Type_ a =? TypeAAAA) eqn:H2; [|discriminate]];
      (match goal with
       | |- context [answers ParseIP l ?acc'] =>
           destruct (IH acc' Hl) as [s [rrs [Hs [He [Hh Hn]]]]]
       end;
       exists s; eexists (_ :: rrs); split; [exact Hs|];
       split; [rewrite He, append_elems, <- app_assoc; reflexivity|];
       split; [cbn [map Header]; now rewrite Hh|];
       split; [intros Hx; apply Hn in Hx as [Hx _]; discriminate|];
       intros [_ Hx]; discriminate).
Qed.

Lemma answers_None l acc :
  forallb supported l = false -> answers ParseIP l acc = None.
Proof.
  revert acc. induction l as [|a l IH]; intros acc H; [discriminate|].
  cbn [forallb] in H. cbn [answers]. unfold supported in H.
  destruct (dnsserver.Type_ a =? TypeA);
    [|destruct (dnsserver.Type_ a =? TypeAAAA)]; cbn [orb andb] in H;
    try reflexivity; now apply IH.
Qed.

(** X17. After a successful [json.Unmarshal], [unpackJSONMsg] panics when
    some answer is of a type other than A and AAAA.  Otherwise it returns
    a response message with the status and the flags TC, RD, RA, AD, CD
    of the JSON message, its questions in order without a class, one
    record per answer in order with the name, type and TTL of the answer
    and no class, and [nil] authority and additional sections; the
    question and answer slices are [nil] exactly when the JSON message
    has none. *)
Theorem unpackJSONMsg_answers b jsonMsg :
  Unmarshal b = (Some jsonMsg, None) ->
  (forallb supported (dnsserver.Answer jsonMsg) = false ->
   unpackJSONMsg Unmarshal ParseIP b = Panic) /\
  (forallb supported (dnsserver.Answer jsonMsg) = true ->
   exists m,
     unpackJSONMsg Unmarshal ParseIP b = Returned (Some m) None /\
     Response (Hdr m) = true /\
     Rcode (Hdr m) = dnsserver.Status jsonMsg /\
     Truncated (Hdr m) = dnsserver.Truncated jsonMsg /\
     RecursionDesired (Hdr m) = dnsserver.RecursionDesired jsonMsg /\
     RecursionAvailable (Hdr m) = dnsserver.RecursionAvailable jsonMsg /\
     AuthenticatedData (Hdr m) = dnsserver.AuthenticatedData jsonMsg /\
     CheckingDisabled (Hdr m) = dnsserver.CheckingDisabled jsonMsg /\
     elems (Questions m) = map jsonQuestion (dnsserver.Question jsonMsg) /\
     (Questions m = None <-> dnsserver.Question jsonMsg = []) /\
     map Header (elems (Answer m)) = map jsonHeader (dnsserver.Answer jsonMsg) /\
     (Answer m = None <-> dnsserver.Answer jsonMsg = []) /\
     Ns m = None /\ Extra m = None).
Proof.
  intros Hu. unfold unpackJSONMsg. rewrite Hu. split.
  - intros H. now rewrite answers_None.
  - intros H.
    destruct (answers_Some (dnsserver.Answer jsonMsg) None H)
      as [s [rrs [Hs [He [Hh Hn]]]]].
    destruct (questions_fold (dnsserver.Question jsonMsg) None)
      as [qs [Hq [Hqe Hqn]]].
    rewrite Hs. eexists. split; [reflexivity|].
    cbn [Hdr Response Rcode Truncated RecursionDesired RecursionAvailable
         AuthenticatedData CheckingDisabled Questions Answer Ns Extra].
    unfold questions. fold jsonQuestion.
    change (fun m q => append m {| QName := dnsserver.qName q;
                                   Qtype := dnsserver.qType q; Qclass := 0 |})
      with (fun m q => append m (jsonQuestion q)).
    rewrite Hq. repeat split; auto; try tauto.
    + rewrite He. cbn [elems app]. exact Hh.
Qed.

End UnpackFacts.

Lemma unpackJSONMsg_answers_witness :
  exists m,
    unpackJSONMsg (E := unit) (fun _ => (Some sampleJSON, None))
      (fun _ => []) []
    = Returned (Some m) None /\
    Response (Hdr m) = true /\ Ns m = None /\ Extra m = None.
Proof.
  destruct (proj2 (unpackJSONMsg_answers unit
                     (fun _ => (Some sampleJSON, None)) (fun _ => [])
                     [] sampleJSON eq_refl) eq_refl)
    as [m [Hm [Hr H]]].
  exists m. repeat split; try assumption; tauto.
Defined.

End dnsserver_test_facts.
